(** * The OneAgent bridge and its [report_status] tool

    A shallow embedding of

    - [packages/core/src/tools/report-status-tool.ts] (both revisions of the
      file: the one whose payload is [result] / [reason] / [mismatch_detail],
      and the one whose payload is the single field [message]), and
    - [packages/cli/src/oneagent-bridge.ts] (the [main] function),

    followed by the properties of the status contract and of the bridge's
    output contract.

    JavaScript strings are modelled by [string]: a sequence of code units,
    here restricted to the range U+0000 .. U+00FF.  On that range the
    primitives below ([toLowerCase], [JSON.stringify], [substring], ...)
    are the ECMAScript ones. *)

From Stdlib Require Import Ascii String NArith.
From stdpp Require Import gmap strings list fin_maps.

Set Warnings "-clear-no-such-hyp".

(** ** ECMAScript primitives used by the sources *)

Module Js.

(** The line feed, written [\n] in the sources. *)
Definition LF : string := String (ascii_of_N 10) EmptyString.

(** Truthiness of a string value: [!s] holds exactly for the empty one. *)
Definition truthy (s : string) : bool := negb (String.eqb s "").

(** Truthiness of an optional string ([undefined] is falsy). *)
Definition truthy_opt (o : option string) : bool :=
  match o with
  | Some s => truthy s
  | None => false
  end.

(** Lower-casing of one code unit of U+0000 .. U+00FF: the Basic Latin
    capitals A .. Z and the Latin-1 capitals U+00C0 .. U+00DE (without the
    multiplication sign U+00D7) move up by 32, the rest is unchanged. *)
Definition lower_unit (c : ascii) : ascii :=
  let n := N_of_ascii c in
  if (65 <=? n)%N && (n <=? 90)%N then ascii_of_N (n + 32)
  else if (192 <=? n)%N && (n <=? 222)%N && negb (n =? 215)%N
       then ascii_of_N (n + 32)
       else c.

(** [String.prototype.toLowerCase]. *)
Fixpoint toLowerCase (s : string) : string :=
  match s with
  | EmptyString => EmptyString
  | String c s' => String (lower_unit c) (toLowerCase s')
  end.

(** [Array.prototype.includes] on an array of strings. *)
Fixpoint includes (l : list string) (x : string) : bool :=
  match l with
  | [] => false
  | y :: l' => String.eqb y x || includes l' x
  end.

(** [Array.prototype.join]. *)
Fixpoint join (sep : string) (l : list string) : string :=
  match l with
  | [] => ""
  | [x] => x
  | x :: l' => x +:+ sep +:+ join sep l'
  end.

(** [String.prototype.substring(0, n)]. *)
Fixpoint substring0 (n : nat) (s : string) : string :=
  match n, s with
  | S n', String c s' => String c (substring0 n' s')
  | _, _ => EmptyString
  end.

(** One lower-case hexadecimal digit. *)
Definition hex_digit (n : N) : ascii :=
  if (n <? 10)%N then ascii_of_N (48 + n) else ascii_of_N (87 + n).

(** [QuoteJSONString], one code unit: the two-character escapes, then
    [\u00XX] for the remaining control characters, anything else as it is. *)
Definition quote_unit (c : ascii) : string :=
  let n := N_of_ascii c in
  if (n =? 8)%N then "\b"
  else if (n =? 9)%N then "\t"
  else if (n =? 10)%N then "\n"
  else if (n =? 12)%N then "\f"
  else if (n =? 13)%N then "\r"
  else if (n =? 34)%N then String "\" (String (ascii_of_N 34) "")
  else if (n =? 92)%N then "\\"
  else if (n <? 32)%N
       then "\u00" +:+ String (hex_digit (n / 16)) (String (hex_digit (n mod 16)) "")
       else String c "".

Fixpoint quote_units (s : string) : string :=
  match s with
  | EmptyString => EmptyString
  | String c s' => quote_unit c +:+ quote_units s'
  end.

Definition DQ : string := String (ascii_of_N 34) EmptyString.

(** [JSON.stringify] of a string value. *)
Definition stringify_string (s : string) : string :=
  DQ +:+ quote_units s +:+ DQ.

(** One member [key: value] of an object; a member whose value is
    [undefined] is left out by [JSON.stringify]. *)
Definition stringify_member (kv : string * option string) : list string :=
  match kv.2 with
  | Some v => [stringify_string kv.1 +:+ ":" +:+ stringify_string v]
  | None => []
  end.

(** [JSON.stringify] of an object whose own properties, in creation
    order, are [members]. *)
Definition stringify_object (members : list (string * option string)) : string :=
  "{" +:+ join "," (members ≫= stringify_member) +:+ "}".

(** A value that a [throw] can carry: an [Error] object with its [name]
    and [message], or a plain string. *)
Inductive Thrown :=
| ErrorObject (name message : string)
| StringValue (s : string).

(** [new Error(msg)]. *)
Definition Error (msg : string) : Thrown := ErrorObject "Error" msg.

(** [String(e)]: [Error.prototype.toString] for error objects. *)
Definition String_ (e : Thrown) : string :=
  match e with
  | ErrorObject name msg =>
      if String.eqb name "" then msg
      else if String.eqb msg "" then name
      else name +:+ ": " +:+ msg
  | StringValue s => s
  end.

(** The lines of a text ([s.split] at the line feeds): a line feed ends a
    line and starts the next. *)
Fixpoint split_lines (s : string) : list string :=
  match s with
  | EmptyString => [EmptyString]
  | String c s' =>
      if Ascii.eqb c (ascii_of_N 10) then EmptyString :: split_lines s'
      else match split_lines s' with
           | l :: ls => String c l :: ls
           | [] => [String c EmptyString]
           end
  end.

(** Template-literal interpolation of an optional string. *)
Definition interpolate (o : option string) : string :=
  match o with
  | Some s => s
  | None => "undefined"
  end.

End Js.

Import Js.

(** ** [report-status-tool.ts]: declarations shared by both revisions *)

(** [VALID_STATUSES]: the valid status values (lowercase). *)
Definition VALID_STATUSES : list string :=
  ["success"; "failure"; "rejected"; "interrupted"].

(** One element of [llmContent]. *)
Record Part := MkPart { text : string }.

(** The [ToolResult] fields that [execute] fills in. *)
Record ToolResult := MkToolResult {
  llmContent : list Part;
  returnDisplay : string
}.

(** The [AbortSignal] handed to [execute]: whether it is already aborted. *)
Record AbortSignal := MkAbortSignal { aborted : bool }.

(** The error text of the third guard of [validateToolParamValues]. *)
Definition invalid_status_message (status : string) : string :=
  "Invalid status " +:+ DQ +:+ status +:+ DQ +:+ ". Must be one of: "
    +:+ join ", " VALID_STATUSES +:+ " (case-insensitive)".

(** What the actions of a process may do to the outside; an asynchronous
    action threads the log of such effects. *)
Inductive Effect :=
| FileWrite (path data : string)
| NetworkCall (url : string)
| Retry.

(** An asynchronous action: the value its promise resolves to, and the
    effects it performed, appended to the log. *)
Definition Async (A : Type) : Type := list Effect → A * list Effect.

Definition resolve {A} (a : A) : Async A := λ log, (a, log).

(** ** The revision with [result], [reason] and [mismatch_detail] *)

Module ReportStatus.

(** [ReportStatusParams].  The parameters have passed the tool's JSON
    schema: [status] and [result] are strings, the optional fields are
    strings or missing. *)
Record ReportStatusParams := MkParams {
  status : string;
  result : string;
  reason : option string;
  mismatch_detail : option string
}.

(** [NormalizedReportStatusParams] has the same fields; its [status] is
    typed [StatusType] by an unchecked cast, a string at run time. *)
Definition NormalizedReportStatusParams : Type := ReportStatusParams.

(** [ReportStatusToolInvocation]: the object holds its [params]. *)
Record ReportStatusToolInvocation := MkInvocation {
  params : NormalizedReportStatusParams
}.

Definition getDescription (this : ReportStatusToolInvocation) : string :=
  let desc :=
    "Reporting status: " +:+ status (params this) +:+ " - " +:+ result (params this) in
  if truthy_opt (reason (params this))
  then desc +:+ " (Reason: " +:+ interpolate (reason (params this)) +:+ ")"
  else desc.

(** [JSON.stringify(this.params)]. *)
Definition stringify_params (p : NormalizedReportStatusParams) : string :=
  stringify_object
    [("status", Some (status p)); ("result", Some (result p));
     ("reason", reason p); ("mismatch_detail", mismatch_detail p)].

(** The [display] string of [execute], built up as the source does. *)
Definition display_of (p : NormalizedReportStatusParams) : string :=
  let display := "Status: " +:+ status p +:+ LF +:+ "Result: " +:+ result p in
  let display :=
    if truthy_opt (reason p)
    then display +:+ (LF +:+ "Reason: " +:+ interpolate (reason p))
    else display in
  let display :=
    if truthy_opt (mismatch_detail p)
    then display +:+ (LF +:+ "Mismatch Detail: " +:+ interpolate (mismatch_detail p))
    else display in
  display.

Definition execute (this : ReportStatusToolInvocation) (_signal : AbortSignal)
  : Async ToolResult :=
  let resultText := stringify_params (params this) in
  let display := display_of (params this) in
  resolve {| llmContent := [ {| text := resultText |} ]; returnDisplay := display |}.

(** Normalize status to lowercase and validate: [None] is [null]. *)
Definition validateToolParamValues (p : ReportStatusParams) : option string :=
  if negb (truthy (status p)) then Some "status is required"
  else if negb (truthy (result p)) then Some "result is required"
  else
    let normalizedStatus := toLowerCase (status p) in
    if negb (includes VALID_STATUSES normalizedStatus)
    then Some (invalid_status_message (status p))
    else None.

Definition createInvocation (p : ReportStatusParams) : ReportStatusToolInvocation :=
  let normalizedParams : NormalizedReportStatusParams :=
    {| status := toLowerCase (status p);
       result := result p;
       reason := reason p;
       mismatch_detail := mismatch_detail p |} in
  MkInvocation normalizedParams.

(** Modelled from the spec: [build] of the base class [BaseDeclarativeTool]
    ([./tools.js] is not part of the sources).  Validation runs before any
    execution; on an error no record is constructed. *)
Definition build (p : ReportStatusParams) : string + ReportStatusToolInvocation :=
  match validateToolParamValues p with
  | Some err => inl err
  | None => inr (createInvocation p)
  end.

End ReportStatus.

(** ** The revision with the single payload field [message] *)

Module ReportStatusMessage.

Record ReportStatusParams := MkParams {
  status : string;
  message : string
}.

Definition NormalizedReportStatusParams : Type := ReportStatusParams.

Record ReportStatusToolInvocation := MkInvocation {
  params : NormalizedReportStatusParams
}.

Definition getDescription (this : ReportStatusToolInvocation) : string :=
  "Reporting status: " +:+ status (params this) +:+ " - " +:+ message (params this).

Definition stringify_params (p : NormalizedReportStatusParams) : string :=
  stringify_object [("status", Some (status p)); ("message", Some (message p))].

Definition display_of (p : NormalizedReportStatusParams) : string :=
  "Status: " +:+ status p +:+ LF +:+ "Result: " +:+ message p.

Definition execute (this : ReportStatusToolInvocation) (_signal : AbortSignal)
  : Async ToolResult :=
  let resultText := stringify_params (params this) in
  let display := display_of (params this) in
  resolve {| llmContent := [ {| text := resultText |} ]; returnDisplay := display |}.

Definition validateToolParamValues (p : ReportStatusParams) : option string :=
  if negb (truthy (status p)) then Some "status is required"
  else if negb (truthy (message p)) then Some "message is required"
  else
    let normalizedStatus := toLowerCase (status p) in
    if negb (includes VALID_STATUSES normalizedStatus)
    then Some (invalid_status_message (status p))
    else None.

Definition createInvocation (p : ReportStatusParams) : ReportStatusToolInvocation :=
  let normalizedParams : NormalizedReportStatusParams :=
    {| status := toLowerCase (status p); message := message p |} in
  MkInvocation normalizedParams.

(** Modelled from the spec: [build] of the base class, as above. *)
Definition build (p : ReportStatusParams) : string + ReportStatusToolInvocation :=
  match validateToolParamValues p with
  | Some err => inl err
  | None => inr (createInvocation p)
  end.

End ReportStatusMessage.


(** ** [oneagent-bridge.ts]: the process and its effects *)

Module Bridge.

(** What the bridge process does that can be seen from outside or that
    touches ambient state, in the order it happens. *)
Inductive Writer := ByBridge | ByCollaborator.

Inductive ConsoleArg :=
| ArgText (s : string)
| ArgValue (e : Thrown).

Inductive Call :=
| CallLoadSettings
| CallGetUserExtensionsDir
| CallNewExtensionEnablementManager
| CallLoadCliConfig
| CallInitialize
| CallRefreshAuth
| CallRegisterTool
| CallUuidv4
| CallCreateMinimalSettings
| CallRunNonInteractive.

Inductive Event :=
| EnvSet (k v : string)                  (* process.env[k] = v *)
| EnvRead (k : string)                   (* process.env[k] *)
| ArgvRead                               (* process.argv *)
| CwdRead                                (* process.cwd() *)
| ConsoleLog (w : Writer) (text : string)  (* one console.log: text, then a line feed *)
| ConsoleError (args : list ConsoleArg)  (* one console.error, on standard error *)
| Called (c : Call)                      (* control passes to an imported function *)
| Exited (code : Z).                     (* process.exit(code) *)

(** The ambient state of the process. *)
Record Process := MkProcess {
  argv : list string;
  env : gmap string string;
  cwd : string
}.

(** How a piece of code completes: normally, by a [throw], or because the
    process has exited. *)
Inductive Completion (A : Type) :=
| Normal (a : A)
| Throw (e : Thrown)
| Exit (code : Z).
Arguments Normal {A} a.
Arguments Throw {A} e.
Arguments Exit {A} code.

Record Result (A : Type) := MkResult {
  completion : Completion A;
  final : Process;
  events : list Event
}.
Arguments MkResult {A}.
Arguments completion {A}.
Arguments final {A}.
Arguments events {A}.

Definition Proc (A : Type) : Type := Process → Result A.

Definition ret {A} (a : A) : Proc A := λ p, MkResult (Normal a) p [].

Definition bind {A B} (m : Proc A) (k : A → Proc B) : Proc B :=
  λ p,
    match m p with
    | MkResult (Normal a) p' evs =>
        match k a p' with
        | MkResult c p'' evs' => MkResult c p'' (evs ++ evs')
        end
    | MkResult (Throw e) p' evs => MkResult (Throw e) p' evs
    | MkResult (Exit code) p' evs => MkResult (Exit code) p' evs
    end.

#[global] Instance proc_ret : MRet Proc := @ret.
#[global] Instance proc_bind : MBind Proc := λ A B k m, bind m k.

(** [try { body } catch (e) { handler e }]: only a [throw] is caught. *)
Definition try_catch {A} (body : Proc A) (handler : Thrown → Proc A) : Proc A :=
  λ p,
    match body p with
    | MkResult (Throw e) p' evs =>
        match handler e p' with
        | MkResult c p'' evs' => MkResult c p'' (evs ++ evs')
        end
    | r => r
    end.

Definition env_set (k v : string) : Proc () :=
  λ p, MkResult (Normal ()) (MkProcess (argv p) (<[k := v]> (env p)) (cwd p)) [EnvSet k v].

Definition env_get (k : string) : Proc (option string) :=
  λ p, MkResult (Normal (env p !! k)) p [EnvRead k].

Definition get_argv : Proc (list string) :=
  λ p, MkResult (Normal (argv p)) p [ArgvRead].

Definition get_cwd : Proc string :=
  λ p, MkResult (Normal (cwd p)) p [CwdRead].

Definition console_log (text : string) : Proc () :=
  λ p, MkResult (Normal ()) p [ConsoleLog ByBridge text].

Definition console_error (args : list ConsoleArg) : Proc () :=
  λ p, MkResult (Normal ()) p [ConsoleError args].

Definition process_exit {A} (code : Z) : Proc A :=
  λ p, MkResult (Exit code) p [Exited code].

(** What a call into an imported module does: the texts it logs on
    standard output (one [console.log] each), the environment it leaves,
    and the value it returns or throws. *)
Record ExtResult (T : Type) := MkExtResult {
  written : list string;
  env_after : gmap string string;
  outcome : Thrown + T
}.
Arguments MkExtResult {T}.
Arguments written {T}.
Arguments env_after {T}.
Arguments outcome {T}.

Definition call {T} (c : Call) (f : Process → ExtResult T) : Proc T :=
  λ p,
    match f p with
    | MkExtResult out e (inl err) =>
        MkResult (Throw err) (MkProcess (argv p) e (cwd p))
          (Called c :: (ConsoleLog ByCollaborator <$> out))
    | MkExtResult out e (inr v) =>
        MkResult (Normal v) (MkProcess (argv p) e (cwd p))
          (Called c :: (ConsoleLog ByCollaborator <$> out))
    end.

(** [AuthType], of which the bridge uses one member. *)
Inductive AuthType := USE_OPENAI.

(** [new ReportStatusTool()], as the tool registry receives it. *)
Inductive Tool := NewReportStatusTool.

Inductive ApprovalMode := yolo_mode.
Inductive OutputFormat := stream_json.
Inductive AuthTypeName := openai_auth.

(** [mockArgs]: the fields with a value; every field the source sets to
    [undefined] is left out. *)
Record MockArgs := MkMockArgs {
  model : option string;
  debug : bool;
  prompt : string;
  allFiles : bool;
  showMemoryUsage : bool;
  yolo : bool;
  approvalMode : ApprovalMode;
  telemetry : bool;
  checkpointing : bool;
  telemetryLogPrompts : bool;
  experimentalAcp : bool;
  experimentalSkills : bool;
  listExtensions : bool;
  openaiLogging : bool;
  openaiApiKey : option string;
  openaiBaseUrl : option string;
  openaiLoggingDir : string;
  outputFormat : OutputFormat;
  includePartialMessages : bool;
  chatRecording : bool;
  continue : bool;
  authType : AuthTypeName
}.

(** The imported functions: the configuration pipeline and the execution
    engine.  Each is any function of its arguments and of the process
    state; it returns or throws. *)
Record Collaborators := MkCollaborators {
  LoadedSettings : Type;
  Settings : Type;
  Manager : Type;
  Extension : Type;
  Config : Type;
  merged : LoadedSettings → Settings;
  loadSettings : string → Process → ExtResult LoadedSettings;
  getUserExtensionsDir : Process → ExtResult string;
  newExtensionEnablementManager : string → Process → ExtResult Manager;
  loadCliConfig :
    Settings → list Extension → Manager → MockArgs → string → Process → ExtResult Config;
  initialize : Config → Process → ExtResult Config;
  refreshAuth : Config → AuthType → bool → Process → ExtResult Config;
  registerTool : Config → Tool → Process → ExtResult Config;
  uuidv4 : Process → ExtResult string;
  createMinimalSettings : Process → ExtResult LoadedSettings;
  runNonInteractive :
    Config → LoadedSettings → string → string → Process → ExtResult ()
}.

(** [Array.prototype.indexOf]; [None] is [-1]. *)
Fixpoint indexOf (l : list string) (x : string) : option nat :=
  match l with
  | [] => None
  | y :: l' => if String.eqb y x then Some 0 else S <$> indexOf l' x
  end.

(** The value [getArgValue] computes from [process.argv]. *)
Definition arg_value (a : list string) (argName : string) : option string :=
  match indexOf a argName with
  | Some index => if truthy_opt (a !! (index + 1)) then a !! (index + 1) else None
  | None => None
  end.

Definition getArgValue (argName : string) : Proc (option string) :=
  a ← get_argv; mret (arg_value a argName).

(** [v || process.env[k]]: the environment is read only when [v] is falsy. *)
Definition or_env (v : option string) (k : string) : Proc (option string) :=
  if truthy_opt v then mret v else env_get k.

(** [getArgValue(argName) || process.env[k]]. *)
Definition arg_or_env (argName k : string) : Proc (option string) :=
  v ← getArgValue argName; or_env v k.

Definition USAGE : string := "Usage: node oneagent-bridge.js <prompt>".

Definition MARKER : string := "__ONEAGENT_RESULT__:".

Definition SUCCESS_MARKER : string :=
  MARKER +:+ "{" +:+ DQ +:+ "status" +:+ DQ +:+ ":" +:+ DQ +:+ "success" +:+ DQ +:+ ","
    +:+ DQ +:+ "result" +:+ DQ +:+ ":" +:+ DQ
    +:+ "Task completed successfully via native CLI." +:+ DQ +:+ "}".

Definition failure_marker (e : Thrown) : string :=
  MARKER +:+ "{" +:+ DQ +:+ "status" +:+ DQ +:+ ":" +:+ DQ +:+ "failure" +:+ DQ +:+ ","
    +:+ DQ +:+ "result" +:+ DQ +:+ ":" +:+ DQ
    +:+ "Bridge Exception: " +:+ String_ e +:+ DQ +:+ "}".

Definition config_log (modelName openaiBaseUrl : option string) : string :=
  "[bridge] Config: model=" +:+ interpolate modelName +:+ ", base_url="
    +:+ interpolate (substring0 30 <$> openaiBaseUrl) +:+ "...".

Section Main.

Context (X : Collaborators).

(** Lines 28 to 37: the telemetry switches, then the prompt. *)
Definition read_prompt : Proc string :=
  env_set "QWEN_DISABLE_TELEMETRY" "true";;
  env_set "QWEN_CODE_TELEMETRY_DISABLED" "1";;
  a ← get_argv;
  let prompt := a !! 2 in
  if negb (truthy_opt prompt)
  then console_error [ArgText USAGE];; process_exit 1
  else mret (interpolate prompt).

(** Lines 39 to 127: settings, arguments, configuration, tool registry. *)
Definition configure (prompt : string) : Proc (Config X * string) :=
  d ← get_cwd;
  settings ← call CallLoadSettings (loadSettings X d);
  dir ← call CallGetUserExtensionsDir (getUserExtensionsDir X);
  extensionEnablementManager ←
    call CallNewExtensionEnablementManager (newExtensionEnablementManager X dir);
  openaiApiKey ← arg_or_env "--openai-api-key" "OPENAI_API_KEY";
  openaiBaseUrl ← arg_or_env "--openai-base-url" "OPENAI_BASE_URL";
  modelName ← getArgValue "--model";
  console_log (config_log modelName openaiBaseUrl);;
  let mockArgs :=
    {| model := modelName; debug := true; prompt := prompt; allFiles := false;
       showMemoryUsage := false; yolo := true; approvalMode := yolo_mode;
       telemetry := false; checkpointing := false; telemetryLogPrompts := false;
       experimentalAcp := false; experimentalSkills := false;
       listExtensions := false; openaiLogging := true;
       openaiApiKey := openaiApiKey; openaiBaseUrl := openaiBaseUrl;
       openaiLoggingDir := "/tmp/qwen-logs"; outputFormat := stream_json;
       includePartialMessages := false; chatRecording := false;
       continue := false; authType := openai_auth |} in
  d' ← get_cwd;
  config ← call CallLoadCliConfig
    (loadCliConfig X (merged X settings) [] extensionEnablementManager mockArgs d');
  config ← call CallInitialize (initialize X config);
  config ← call CallRefreshAuth (refreshAuth X config USE_OPENAI true);
  config ← call CallRegisterTool (registerTool X config NewReportStatusTool);
  console_log "[bridge] Starting native CLI loop...";;
  promptId ← call CallUuidv4 (uuidv4 X);
  mret (config, promptId).

(** Lines 129 to 142: the single run and the marker. *)
Definition run (config : Config X) (prompt promptId : string) : Proc () :=
  try_catch
    (env_set "QWEN_DISABLE_TELEMETRY" "true";;
     minimal ← call CallCreateMinimalSettings (createMinimalSettings X);
     call CallRunNonInteractive (runNonInteractive X config minimal prompt promptId);;
     console_log SUCCESS_MARKER;;
     process_exit 0)
    (λ e,
       console_error [ArgText "Bridge Error:"; ArgValue e];;
       console_log (failure_marker e);;
       process_exit 1).

Definition main : Proc () :=
  prompt ← read_prompt;
  '(config, promptId) ← configure prompt;
  run config prompt promptId.

End Main.

(** *** Standard output as lines *)

(** The texts logged on standard output, in order. *)
Definition logged (evs : list Event) : list string :=
  evs ≫= λ ev, match ev with ConsoleLog _ text => [text] | _ => [] end.

(** The texts the bridge itself logged. *)
Definition logged_by_bridge (evs : list Event) : list string :=
  evs ≫= λ ev, match ev with ConsoleLog ByBridge text => [text] | _ => [] end.

(** Standard output, line by line: each logged text is followed by a line
    feed, so the lines of the stream are the lines of the texts in order. *)
Definition stdout_lines (evs : list Event) : list string :=
  logged evs ≫= split_lines.

(** [String.prototype.startsWith]. *)
Definition startsWith (s pre : string) : bool := String.prefix pre s.

Definition is_marker_line (l : string) : bool := startsWith l MARKER.

(** The code [main] hands to [process.exit], when it calls it; [None] when
    it completes otherwise, for instance by a throw that nothing catches
    (the status of the process is then [process_status] below). *)
Definition exit_code {A} (r : Result A) : option Z :=
  match completion r with
  | Exit code => Some code
  | _ => None
  end.

End Bridge.


(** ** Definitions used to state the properties *)

(** The condition under which validation is to fail, in the words of the
    specification: the status is empty, the payload text is empty, or the
    case-folded status is not one of the four recognized values. *)
Definition rejected_input (status payload : string) : Prop :=
  status = EmptyString ∨ payload = EmptyString ∨ toLowerCase status ∉ VALID_STATUSES.

(** The rendering of a record in the words of the specification: one entry
    per populated field, the status first, then the payload fields, an
    optional field only when it is populated. *)
Definition optional_line (label : string) (field : option string) : list string :=
  match field with
  | Some v => if truthy v then [label +:+ v] else []
  | None => []
  end.

Definition rendered_lines (p : ReportStatus.NormalizedReportStatusParams) : list string :=
  ["Status: " +:+ ReportStatus.status p; "Result: " +:+ ReportStatus.result p]
    ++ optional_line "Reason: " (ReportStatus.reason p)
    ++ optional_line "Mismatch Detail: " (ReportStatus.mismatch_detail p).

Definition rendered_lines_message
  (p : ReportStatusMessage.NormalizedReportStatusParams) : list string :=
  ["Status: " +:+ ReportStatusMessage.status p; "Result: " +:+ ReportStatusMessage.message p].

(** The serialization of a record in the words of the specification: every
    field the record holds, as a JSON object. *)
Definition json_member (key : string) (field : option string) : list string :=
  match field with
  | Some v => [stringify_string key +:+ ":" +:+ stringify_string v]
  | None => []
  end.

Definition json_of_record (p : ReportStatus.NormalizedReportStatusParams) : string :=
  "{" +:+ join ","
    (json_member "status" (Some (ReportStatus.status p))
     ++ json_member "result" (Some (ReportStatus.result p))
     ++ json_member "reason" (ReportStatus.reason p)
     ++ json_member "mismatch_detail" (ReportStatus.mismatch_detail p)) +:+ "}".

Definition json_of_record_message
  (p : ReportStatusMessage.NormalizedReportStatusParams) : string :=
  "{" +:+ join ","
    (json_member "status" (Some (ReportStatusMessage.status p))
     ++ json_member "message" (Some (ReportStatusMessage.message p))) +:+ "}".

(** The rendering as the specification words it: the lines of the display
    are the entries, one line per populated field. *)
Definition display_one_line_per_field
  (p : ReportStatus.NormalizedReportStatusParams) : Prop :=
  split_lines
    (returnDisplay
       (ReportStatus.execute (ReportStatus.MkInvocation p) (MkAbortSignal false) []).1)
  = rendered_lines p.

(** A text without a line feed. *)
Fixpoint one_line (s : string) : bool :=
  match s with
  | EmptyString => true
  | String c s' => negb (Ascii.eqb c (ascii_of_N 10)) && one_line s'
  end.

(** The priority rule for a flag and its environment variable as the
    specification words it: the value that follows the flag whenever the
    flag is there, the environment variable when the flag is absent. *)
Definition flag_priority_as_stated
  (a : list string) (e : gmap string string) (flag var : string)
  (chosen : option string) : Prop :=
  (∀ i, Bridge.indexOf a flag = Some i → chosen = a !! (i + 1))
  ∧ (Bridge.indexOf a flag = None → chosen = e !! var).

(** Collaborators that log nothing and succeed, except for the run, which
    logs [out] and completes as [run_outcome] says.  The configuration they
    build is the argument record itself, so that what [main] hands over
    can be read back. *)
Definition quiet {T} (v : T) : Bridge.Process → Bridge.ExtResult T :=
  λ p, Bridge.MkExtResult [] (Bridge.env p) (inr v).

Definition scripted (out : list string) (run_outcome : Thrown + ()) : Bridge.Collaborators :=
  {| Bridge.LoadedSettings := ();
     Bridge.Settings := ();
     Bridge.Manager := ();
     Bridge.Extension := ();
     Bridge.Config := Bridge.MockArgs;
     Bridge.merged := λ _, ();
     Bridge.loadSettings := λ _, quiet ();
     Bridge.getUserExtensionsDir := quiet "/home/user/.qwen/extensions";
     Bridge.newExtensionEnablementManager := λ _, quiet ();
     Bridge.loadCliConfig := λ _ _ _ mockArgs _, quiet mockArgs;
     Bridge.initialize := λ config, quiet config;
     Bridge.refreshAuth := λ config _ _, quiet config;
     Bridge.registerTool := λ config _, quiet config;
     Bridge.uuidv4 := quiet "prompt-id";
     Bridge.createMinimalSettings := quiet ();
     Bridge.runNonInteractive :=
       λ _ _ _ _ p, Bridge.MkExtResult out (Bridge.env p) run_outcome |}.

(** A process started as [node oneagent-bridge.js <args>]. *)
Definition started (args : list string) (e : gmap string string) : Bridge.Process :=
  Bridge.MkProcess ("node" :: "oneagent-bridge.js" :: args) e "/work".


(** A piece of code that never ends the process itself. *)
Definition never_exits {A} (m : Bridge.Proc A) : Prop :=
  ∀ p code, Bridge.completion (m p) ≠ Bridge.Exit code.

(** The last line of standard output. *)
Definition last_stdout_line (evs : list Bridge.Event) : option string :=
  last (Bridge.stdout_lines evs).

(** The exit status of the Node process that runs [main()]: the code given
    to [process.exit]; 1 when [main] completes by a throw, since nothing
    handles the rejected promise and Node ends the process with status 1;
    0 when [main] returns. *)
Definition process_status {A} (r : Bridge.Result A) : Z :=
  match Bridge.completion r with
  | Bridge.Exit code => code
  | Bridge.Throw _ => 1
  | Bridge.Normal _ => 0
  end.

(** ** Definitions for the further properties *)

(** *** Case variants of a status *)

Definition is_lower_letter (c : ascii) : bool :=
  let n := N_of_ascii c in (97 <=? n)%N && (n <=? 122)%N.

(** The capital of a small letter. *)
Definition upper_unit (c : ascii) : ascii := ascii_of_N (N_of_ascii c - 32).

(** [c] is the small letter [t] or its capital. *)
Definition unit_case_variant (t c : ascii) : bool :=
  Ascii.eqb c t || Ascii.eqb c (upper_unit t).

(** [s] is [t] with some of its letters capitalized: same length, and at
    every place the letter of [t] or its capital. *)
Fixpoint case_variant (t s : string) : bool :=
  match t, s with
  | EmptyString, EmptyString => true
  | String a t', String c s' => unit_case_variant a c && case_variant t' s'
  | _, _ => false
  end.

Fixpoint lower_letters (t : string) : bool :=
  match t with
  | EmptyString => true
  | String a t' => is_lower_letter a && lower_letters t'
  end.

(** *** Reading back what [JSON.stringify] wrote *)

Definition unhex (c : ascii) : option N :=
  let n := N_of_ascii c in
  if (48 <=? n)%N && (n <=? 57)%N then Some (n - 48)%N
  else if (97 <=? n)%N && (n <=? 102)%N then Some (n - 87)%N
  else None.

(** Where the reader stands inside a quoted string: in plain text, after a
    backslash, or inside a [\u] escape with [k] digits to go. *)
Inductive QuoteState :=
| InPlain
| AfterBackslash
| InHex (k : nat) (acc : N).

Definition push (c : ascii) (r : option (string * string)) : option (string * string) :=
  match r with
  | Some (s, rest) => Some (String c s, rest)
  | None => None
  end.

(** [unquote st s]: the text up to the closing quote, unescaped, and what
    follows the closing quote. *)
Fixpoint unquote (st : QuoteState) (s : string) : option (string * string) :=
  match s with
  | EmptyString => None
  | String c s' =>
      match st with
      | InPlain =>
          if Ascii.eqb c (ascii_of_N 34) then Some (EmptyString, s')
          else if Ascii.eqb c (ascii_of_N 92) then unquote AfterBackslash s'
          else push c (unquote InPlain s')
      | AfterBackslash =>
          let n := N_of_ascii c in
          if (n =? 98)%N then push (ascii_of_N 8) (unquote InPlain s')
          else if (n =? 116)%N then push (ascii_of_N 9) (unquote InPlain s')
          else if (n =? 110)%N then push (ascii_of_N 10) (unquote InPlain s')
          else if (n =? 102)%N then push (ascii_of_N 12) (unquote InPlain s')
          else if (n =? 114)%N then push (ascii_of_N 13) (unquote InPlain s')
          else if (n =? 34)%N then push (ascii_of_N 34) (unquote InPlain s')
          else if (n =? 92)%N then push (ascii_of_N 92) (unquote InPlain s')
          else if (n =? 117)%N then unquote (InHex 4 0) s'
          else None
      | InHex k acc =>
          match unhex c with
          | Some d =>
              match k with
              | 1 => push (ascii_of_N (acc * 16 + d)) (unquote InPlain s')
              | S k' => unquote (InHex k' (acc * 16 + d)) s'
              | O => None
              end
          | None => None
          end
      end
  end.

(** [strip pre s]: [s] without its prefix [pre], when it has it. *)
Fixpoint strip (pre s : string) : option string :=
  match pre, s with
  | EmptyString, _ => Some s
  | String a pre', String c s' => if Ascii.eqb a c then strip pre' s' else None
  | _, _ => None
  end.

(** A quoted member value after the text [opening] (a key with its
    punctuation and the opening quote of the value). *)
Definition read_member (opening s : string) : option (string * string) :=
  match strip opening s with
  | Some s' => unquote InPlain s'
  | None => None
  end.

Definition KEY_STATUS : string := "{" +:+ DQ +:+ "status" +:+ DQ +:+ ":" +:+ DQ.
Definition KEY_RESULT : string := "," +:+ DQ +:+ "result" +:+ DQ +:+ ":" +:+ DQ.
Definition KEY_REASON : string := "," +:+ DQ +:+ "reason" +:+ DQ +:+ ":" +:+ DQ.
Definition KEY_MISMATCH : string := "," +:+ DQ +:+ "mismatch_detail" +:+ DQ +:+ ":" +:+ DQ.
Definition KEY_MESSAGE : string := "," +:+ DQ +:+ "message" +:+ DQ +:+ ":" +:+ DQ.

(** The end of the object, after an optional [mismatch_detail]. *)
Definition read_tail (s : string) : option (option string) :=
  match read_member KEY_MISMATCH s with
  | Some (m, s') => if String.eqb s' "}" then Some (Some m) else None
  | None => if String.eqb s "}" then Some None else None
  end.

(** Reads the serialization of a record of the first revision. *)
Definition read_params (j : string) : option ReportStatus.ReportStatusParams :=
  match read_member KEY_STATUS j with
  | Some (st, s1) =>
      match read_member KEY_RESULT s1 with
      | Some (res, s2) =>
          match read_member KEY_REASON s2 with
          | Some (r, s3) =>
              match read_tail s3 with
              | Some m => Some (ReportStatus.MkParams st res (Some r) m)
              | None => None
              end
          | None =>
              match read_tail s2 with
              | Some m => Some (ReportStatus.MkParams st res None m)
              | None => None
              end
          end
      | None => None
      end
  | None => None
  end.

(** Reads the serialization of a record of the second revision. *)
Definition read_params_message (j : string) : option ReportStatusMessage.ReportStatusParams :=
  match read_member KEY_STATUS j with
  | Some (st, s1) =>
      match read_member KEY_MESSAGE s1 with
      | Some (msg, s2) =>
          if String.eqb s2 "}" then Some (ReportStatusMessage.MkParams st msg) else None
      | None => None
      end
  | None => None
  end.

(** A code unit that [JSON.stringify] writes as it is. *)
Definition plain_unit (c : ascii) : bool :=
  let n := N_of_ascii c in
  (32 <=? n)%N && negb (n =? 34)%N && negb (n =? 92)%N.

Fixpoint plain_text (s : string) : bool :=
  match s with
  | EmptyString => true
  | String c s' => plain_unit c && plain_text s'
  end.

(** *** Traces of the bridge *)

(** The imported functions a trace enters, in order. *)
Definition calls (evs : list Bridge.Event) : list Bridge.Call :=
  evs ≫= λ ev, match ev with Bridge.Called c => [c] | _ => [] end.

(** The order in which [main] is written to enter the imported functions. *)
Definition PIPELINE : list Bridge.Call :=
  [Bridge.CallLoadSettings; Bridge.CallGetUserExtensionsDir;
   Bridge.CallNewExtensionEnablementManager; Bridge.CallLoadCliConfig;
   Bridge.CallInitialize; Bridge.CallRefreshAuth; Bridge.CallRegisterTool;
   Bridge.CallUuidv4; Bridge.CallCreateMinimalSettings; Bridge.CallRunNonInteractive].

(** A trace without what the imported functions logged: what the bridge
    itself did. *)
Fixpoint skeleton (evs : list Bridge.Event) : list Bridge.Event :=
  match evs with
  | [] => []
  | Bridge.ConsoleLog Bridge.ByCollaborator _ :: evs' => skeleton evs'
  | ev :: evs' => ev :: skeleton evs'
  end.

(** The texts the bridge logged that start with the marker prefix. *)
Definition marker_texts (evs : list Bridge.Event) : list string :=
  filter (λ t, Bridge.is_marker_line t = true) (Bridge.logged_by_bridge evs).

Definition STARTING : string := "[bridge] Starting native CLI loop...".

(** What [main] does up to the prompt check when there is a prompt. *)
Definition PROLOGUE : list Bridge.Event :=
  [Bridge.EnvSet "QWEN_DISABLE_TELEMETRY" "true";
   Bridge.EnvSet "QWEN_CODE_TELEMETRY_DISABLED" "1"; Bridge.ArgvRead].

(** Reading one option: the argument vector, then the environment when
    the flag gave no value. *)
Definition option_reads (a : list string) (argName k : string) : list Bridge.Event :=
  match Bridge.arg_value a argName with
  | Some _ => [Bridge.ArgvRead]
  | None => [Bridge.ArgvRead; Bridge.EnvRead k]
  end.

(** What the configuration step does when nothing throws, for the
    argument vector [a] and the base URL [u] that was chosen. *)
Definition SETUP (a : list string) (u : option string) : list Bridge.Event :=
  [Bridge.CwdRead; Bridge.Called Bridge.CallLoadSettings;
   Bridge.Called Bridge.CallGetUserExtensionsDir;
   Bridge.Called Bridge.CallNewExtensionEnablementManager]
  ++ option_reads a "--openai-api-key" "OPENAI_API_KEY"
  ++ option_reads a "--openai-base-url" "OPENAI_BASE_URL"
  ++ [Bridge.ArgvRead;
      Bridge.ConsoleLog Bridge.ByBridge
        (Bridge.config_log (Bridge.arg_value a "--model") u);
      Bridge.CwdRead; Bridge.Called Bridge.CallLoadCliConfig;
      Bridge.Called Bridge.CallInitialize; Bridge.Called Bridge.CallRefreshAuth;
      Bridge.Called Bridge.CallRegisterTool;
      Bridge.ConsoleLog Bridge.ByBridge STARTING;
      Bridge.Called Bridge.CallUuidv4].

(** The three ways the [try] statement goes. *)
Definition RUN_SUCCESS : list Bridge.Event :=
  [Bridge.EnvSet "QWEN_DISABLE_TELEMETRY" "true";
   Bridge.Called Bridge.CallCreateMinimalSettings;
   Bridge.Called Bridge.CallRunNonInteractive;
   Bridge.ConsoleLog Bridge.ByBridge Bridge.SUCCESS_MARKER; Bridge.Exited 0].

Definition RUN_FAILURE (e : Thrown) : list Bridge.Event :=
  [Bridge.EnvSet "QWEN_DISABLE_TELEMETRY" "true";
   Bridge.Called Bridge.CallCreateMinimalSettings;
   Bridge.Called Bridge.CallRunNonInteractive;
   Bridge.ConsoleError [Bridge.ArgText "Bridge Error:"; Bridge.ArgValue e];
   Bridge.ConsoleLog Bridge.ByBridge (Bridge.failure_marker e); Bridge.Exited 1].

Definition SETTINGS_FAILURE (e : Thrown) : list Bridge.Event :=
  [Bridge.EnvSet "QWEN_DISABLE_TELEMETRY" "true";
   Bridge.Called Bridge.CallCreateMinimalSettings;
   Bridge.ConsoleError [Bridge.ArgText "Bridge Error:"; Bridge.ArgValue e];
   Bridge.ConsoleLog Bridge.ByBridge (Bridge.failure_marker e); Bridge.Exited 1].

(** Collaborators as [scripted], with [loadCliConfig] throwing [e]. *)
Definition failing_setup (e : Thrown) : Bridge.Collaborators :=
  {| Bridge.LoadedSettings := ();
     Bridge.Settings := ();
     Bridge.Manager := ();
     Bridge.Extension := ();
     Bridge.Config := Bridge.MockArgs;
     Bridge.merged := λ _, ();
     Bridge.loadSettings := λ _, quiet ();
     Bridge.getUserExtensionsDir := quiet "/home/user/.qwen/extensions";
     Bridge.newExtensionEnablementManager := λ _, quiet ();
     Bridge.loadCliConfig :=
       λ _ _ _ _ _ p, Bridge.MkExtResult ["loading"] (Bridge.env p) (inl e);
     Bridge.initialize := λ config, quiet config;
     Bridge.refreshAuth := λ config _ _, quiet config;
     Bridge.registerTool := λ config _, quiet config;
     Bridge.uuidv4 := quiet "prompt-id";
     Bridge.createMinimalSettings := quiet ();
     Bridge.runNonInteractive := λ _ _ _ _, quiet () |}.

(** Collaborators as [scripted], with [createMinimalSettings] throwing [e]. *)
Definition failing_minimal_settings (e : Thrown) : Bridge.Collaborators :=
  {| Bridge.LoadedSettings := ();
     Bridge.Settings := ();
     Bridge.Manager := ();
     Bridge.Extension := ();
     Bridge.Config := Bridge.MockArgs;
     Bridge.merged := λ _, ();
     Bridge.loadSettings := λ _, quiet ();
     Bridge.getUserExtensionsDir := quiet "/home/user/.qwen/extensions";
     Bridge.newExtensionEnablementManager := λ _, quiet ();
     Bridge.loadCliConfig := λ _ _ _ mockArgs _, quiet mockArgs;
     Bridge.initialize := λ config, quiet config;
     Bridge.refreshAuth := λ config _ _, quiet config;
     Bridge.registerTool := λ config _, quiet config;
     Bridge.uuidv4 := quiet "prompt-id";
     Bridge.createMinimalSettings :=
       λ p, Bridge.MkExtResult [] (Bridge.env p) (inl e);
     Bridge.runNonInteractive := λ _ _ _ _, quiet () |}.

(** The accesses to [process.env] that [main] is written to make, for the
    argument vector [a]: the two telemetry switches are set, and the two
    OpenAI variables are read, each only when its flag gave no value. *)
Definition env_access_allowed (a : list string) (ev : Bridge.Event) : Prop :=
  match ev with
  | Bridge.EnvSet k v =>
      (k = "QWEN_DISABLE_TELEMETRY" ∧ v = "true")
      ∨ (k = "QWEN_CODE_TELEMETRY_DISABLED" ∧ v = "1")
  | Bridge.EnvRead k =>
      (k = "OPENAI_API_KEY" ∧ Bridge.arg_value a "--openai-api-key" = None)
      ∨ (k = "OPENAI_BASE_URL" ∧ Bridge.arg_value a "--openai-base-url" = None)
  | _ => True
  end.

(** A configuration value of the scripted collaborators. *)
Definition sample_config : Bridge.MockArgs :=
  {| Bridge.model := None; Bridge.debug := true; Bridge.prompt := "do the task";
     Bridge.allFiles := false; Bridge.showMemoryUsage := false; Bridge.yolo := true;
     Bridge.approvalMode := Bridge.yolo_mode; Bridge.telemetry := false;
     Bridge.checkpointing := false; Bridge.telemetryLogPrompts := false;
     Bridge.experimentalAcp := false; Bridge.experimentalSkills := false;
     Bridge.listExtensions := false; Bridge.openaiLogging := true;
     Bridge.openaiApiKey := None; Bridge.openaiBaseUrl := None;
     Bridge.openaiLoggingDir := "/tmp/qwen-logs";
     Bridge.outputFormat := Bridge.stream_json;
     Bridge.includePartialMessages := false; Bridge.chatRecording := false;
     Bridge.continue := false; Bridge.authType := Bridge.openai_auth |}.

(** ** [scripts/build-oneagent-bridge.js] *)

Module BuildScript.

(** What the script does that can be seen from outside, in order. *)
Inductive Event :=
| Warn (text : string)                         (* console.warn *)
| Log (text : string)                          (* console.log *)
| ErrorLog (text : string) (e : Thrown)        (* console.error(text, e) *)
| Required (path : string)                     (* require(path) *)
| ExistsSync (path : string)
| MkdirSync (path : string)                    (* mkdirSync(path, { recursive: true }) *)
| Build                                        (* esbuild.build(options) *)
| WriteFileSync (path data : string)
| ExitCodeSet (code : Z)                       (* process.exitCode = code *)
| Exited (code : Z).                           (* process.exit(code) *)

(** The options object handed to [esbuild.build]. *)
Record BuildOptions := MkBuildOptions {
  entryPoints : list string;
  bundle : bool;
  outfile : string;
  platform : string;
  format : string;
  target : string;
  external : list string;
  packages : string;
  inject : list string;
  banner_js : string;
  alias : list (string * string);
  define : list (string * option string);
  loader : list (string * string);
  metafile : bool;
  write : bool;
  keepNames : bool
}.

(** What the script runs in: the paths that exist and the environment. *)
Record World := MkWorld {
  existing : gset string;
  env : gmap string string
}.

(** The modules and built-ins the script imports.  [import_esbuild] is
    the error of the dynamic import when it fails; [require_version] is
    [require(path).version]; [build] resolves to the metafile, given here
    as its [JSON.stringify(metafile, null, 2)] text, or rejects. *)
Record Toolchain := MkToolchain {
  import_esbuild : option Thrown;
  dirname : string;
  resolve : string → string → string;
  require_version : string → Thrown + option string;
  mkdir : string → World → option Thrown;
  build : BuildOptions → World → Thrown + string;
  writeFile : string → string → World → option Thrown
}.

(** How the process ends: [process.exit] was called, an exception went
    uncaught, or the script ran to its end with [process.exitCode] as it
    then stands ([None] when it was never set). *)
Inductive Outcome :=
| ExitCalled (code : Z)
| Uncaught (e : Thrown)
| Ended (exitCode : option Z).

Record Result := MkResult {
  outcome : Outcome;
  world : World;
  events : list Event
}.

Definition EXTERNAL : list string :=
  ["@lydell/node-pty"; "node-pty"; "@lydell/node-pty-darwin-arm64";
   "@lydell/node-pty-darwin-x64"; "@lydell/node-pty-linux-x64";
   "@lydell/node-pty-win32-arm64"; "@lydell/node-pty-win32-x64"; "tiktoken"].

Definition BANNER : string :=
  "// Force strict mode and setup for ESM" +:+ LF +:+ DQ +:+ "use strict" +:+ DQ +:+ ";".

Definition METAFILE_PATH : string := "./dist/oneagent-bridge.esbuild.json".

(** The success message, as the bytes written to standard output (it
    opens with a check mark, U+2705). *)
Definition BUILT : string := "✅ oneagent-bridge.js built successfully".

(** The options of the one [esbuild.build] call. *)
Definition options (T : Toolchain) (version : option string) : BuildOptions :=
  {| entryPoints := ["packages/cli/src/oneagent-bridge.ts"];
     bundle := true;
     outfile := "dist/oneagent-bridge.js";
     platform := "node";
     format := "esm";
     target := "node20";
     external := EXTERNAL;
     packages := "bundle";
     inject := [resolve T (dirname T) "esbuild-shims.js"];
     banner_js := BANNER;
     alias := [("is-in-ci", resolve T (dirname T) "../packages/cli/src/patches/is-in-ci.ts")];
     define := [("process.env.CLI_VERSION", stringify_string <$> version);
                ("global", Some "globalThis")];
     loader := [(".node", "file")];
     metafile := true;
     write := true;
     keepNames := true |}.

(** The [.then] handler: the success message, then the metafile when
    [process.env.DEV === 'true'].  It gives what it threw, if anything. *)
Definition on_built (T : Toolchain) (metafile_json : string) (w : World)
  : option Thrown * list Event :=
  if bool_decide (env w !! "DEV" = Some "true")
  then (writeFile T METAFILE_PATH metafile_json w,
        [Log BUILT; WriteFileSync METAFILE_PATH metafile_json])
  else (None, [Log BUILT]).

(** The [.catch] handler. *)
Definition on_failed (error : Thrown) : list Event :=
  [ErrorLog "esbuild build failed:" error; ExitCodeSet 1].

(** [esbuild.build(options).then(...).catch(...)]: the [catch] handler
    also receives what the [then] handler throws. *)
Definition build_chain (T : Toolchain) (version : option string) (w : World) : Result :=
  match build T (options T version) w with
  | inr metafile_json =>
      match on_built T metafile_json w with
      | (None, evs) => MkResult (Ended None) w (Build :: evs)
      | (Some error, evs) =>
          MkResult (Ended (Some 1%Z)) w (Build :: evs ++ on_failed error)
      end
  | inl error => MkResult (Ended (Some 1%Z)) w (Build :: on_failed error)
  end.

(** The script, top to bottom. *)
Definition script (T : Toolchain) (w : World) : Result :=
  match import_esbuild T with
  | Some _error =>
      MkResult (ExitCalled 0) w
        [Warn "esbuild not available, skipping bundle step"; Exited 0]
  | None =>
      let pkgPath := resolve T (dirname T) "../package.json" in
      match require_version T pkgPath with
      | inl e => MkResult (Uncaught e) w [Required pkgPath]
      | inr version =>
          let distDir := resolve T (dirname T) "../dist" in
          if bool_decide (distDir ∈ existing w)
          then
            match build_chain T version w with
            | MkResult o w' evs =>
                MkResult o w' (Required pkgPath :: ExistsSync distDir :: evs)
            end
          else
            match mkdir T distDir w with
            | Some e =>
                MkResult (Uncaught e) w
                  [Required pkgPath; ExistsSync distDir; MkdirSync distDir]
            | None =>
                match build_chain T version
                        (MkWorld ({[distDir]} ∪ existing w) (env w)) with
                | MkResult o w' evs =>
                    MkResult o w'
                      (Required pkgPath :: ExistsSync distDir :: MkdirSync distDir :: evs)
                end
            end
      end
  end.

(** The exit code the process ends with. *)
Definition exit_code (r : Result) : Z :=
  match outcome r with
  | ExitCalled code => code
  | Uncaught _ => 1
  | Ended (Some code) => code
  | Ended None => 0
  end.

End BuildScript.

(** A toolchain on which everything works; the build gives [meta]. *)
Definition working_toolchain (meta : string) : BuildScript.Toolchain :=
  {| BuildScript.import_esbuild := None;
     BuildScript.dirname := "/repo/scripts";
     BuildScript.resolve := λ dir rel, dir +:+ "/" +:+ rel;
     BuildScript.require_version := λ _, inr (Some "0.1.0");
     BuildScript.mkdir := λ _ _, None;
     BuildScript.build := λ _ _, inr meta;
     BuildScript.writeFile := λ _ _ _, None |}.


(** ** Properties of the primitives *)

Lemma truthy_false (s : string) : truthy s = false ↔ s = EmptyString.
Proof.
  unfold truthy. rewrite negb_false_iff. apply String.eqb_eq.
Qed.

Lemma truthy_true (s : string) : truthy s = true ↔ s ≠ EmptyString.
Proof.
  unfold truthy. rewrite negb_true_iff. apply String.eqb_neq.
Qed.

Lemma includes_elem_of (l : list string) (x : string) :
  includes l x = true ↔ x ∈ l.
Proof.
  induction l as [|y l IH]; simpl.
  - split; [discriminate | intros H; inversion H].
  - rewrite orb_true_iff, IH, String.eqb_eq, elem_of_cons.
    split; (intros [H|H]; [left; congruence | by right]).
Qed.

Lemma includes_not_elem_of (l : list string) (x : string) :
  includes l x = false ↔ x ∉ l.
Proof.
  rewrite <- includes_elem_of. destruct (includes l x); naive_solver.
Qed.

Lemma lower_unit_idemp (c : ascii) : lower_unit (lower_unit c) = lower_unit c.
Proof.
  destruct c as [[] [] [] [] [] [] [] []]; reflexivity.
Qed.

Lemma toLowerCase_idemp (s : string) : toLowerCase (toLowerCase s) = toLowerCase s.
Proof.
  induction s as [|c s IH]; simpl; [reflexivity|].
  by rewrite lower_unit_idemp, IH.
Qed.

Lemma toLowerCase_length (s : string) :
  String.length (toLowerCase s) = String.length s.
Proof.
  induction s as [|c s IH]; simpl; congruence.
Qed.

Lemma toLowerCase_empty (s : string) : toLowerCase s = EmptyString ↔ s = EmptyString.
Proof.
  destruct s; simpl; split; congruence.
Qed.

(** The four recognized values are already in lower case. *)
Lemma valid_status_lower (s : string) : s ∈ VALID_STATUSES → toLowerCase s = s.
Proof.
  unfold VALID_STATUSES. rewrite !elem_of_cons, elem_of_nil.
  intros [->|[->|[->|[->|[]]]]]; reflexivity.
Qed.

Lemma valid_status_nonempty (s : string) : s ∈ VALID_STATUSES → s ≠ EmptyString.
Proof.
  unfold VALID_STATUSES. rewrite !elem_of_cons, elem_of_nil.
  intros [->|[->|[->|[->|[]]]]]; discriminate.
Qed.

Lemma invalid_status_message_nonempty (s : string) :
  invalid_status_message s ≠ EmptyString.
Proof. discriminate. Qed.

(** ** Validation *)

Lemma validate_cases (p : ReportStatus.ReportStatusParams) :
  ReportStatus.validateToolParamValues p =
    if decide (ReportStatus.status p = EmptyString) then Some "status is required"
    else if decide (ReportStatus.result p = EmptyString) then Some "result is required"
    else if decide (toLowerCase (ReportStatus.status p) ∈ VALID_STATUSES) then None
    else Some (invalid_status_message (ReportStatus.status p)).
Proof.
  unfold ReportStatus.validateToolParamValues.
  destruct (truthy (ReportStatus.status p)) eqn:Hs; cbn [negb].
  - apply truthy_true in Hs. rewrite decide_False by done.
    destruct (truthy (ReportStatus.result p)) eqn:Hr; cbn [negb].
    + apply truthy_true in Hr. rewrite decide_False by done.
      destruct (includes VALID_STATUSES (toLowerCase (ReportStatus.status p))) eqn:Hi;
        cbn [negb].
      * apply includes_elem_of in Hi. by rewrite decide_True.
      * apply includes_not_elem_of in Hi. by rewrite decide_False.
    + apply truthy_false in Hr. by rewrite decide_True.
  - apply truthy_false in Hs. by rewrite decide_True.
Qed.

Lemma validate_message_cases (p : ReportStatusMessage.ReportStatusParams) :
  ReportStatusMessage.validateToolParamValues p =
    if decide (ReportStatusMessage.status p = EmptyString) then Some "status is required"
    else if decide (ReportStatusMessage.message p = EmptyString) then Some "message is required"
    else if decide (toLowerCase (ReportStatusMessage.status p) ∈ VALID_STATUSES) then None
    else Some (invalid_status_message (ReportStatusMessage.status p)).
Proof.
  unfold ReportStatusMessage.validateToolParamValues.
  destruct (truthy (ReportStatusMessage.status p)) eqn:Hs; cbn [negb].
  - apply truthy_true in Hs. rewrite decide_False by done.
    destruct (truthy (ReportStatusMessage.message p)) eqn:Hr; cbn [negb].
    + apply truthy_true in Hr. rewrite decide_False by done.
      destruct (includes VALID_STATUSES (toLowerCase (ReportStatusMessage.status p))) eqn:Hi;
        cbn [negb].
      * apply includes_elem_of in Hi. by rewrite decide_True.
      * apply includes_not_elem_of in Hi. by rewrite decide_False.
    + apply truthy_false in Hr. by rewrite decide_True.
  - apply truthy_false in Hs. by rewrite decide_True.
Qed.

Lemma validate_accepts (p : ReportStatus.ReportStatusParams) :
  ReportStatus.validateToolParamValues p = None ↔
  ReportStatus.status p ≠ EmptyString ∧ ReportStatus.result p ≠ EmptyString
  ∧ toLowerCase (ReportStatus.status p) ∈ VALID_STATUSES.
Proof.
  rewrite validate_cases. repeat case_decide; naive_solver.
Qed.

Lemma validate_message_accepts (p : ReportStatusMessage.ReportStatusParams) :
  ReportStatusMessage.validateToolParamValues p = None ↔
  ReportStatusMessage.status p ≠ EmptyString ∧ ReportStatusMessage.message p ≠ EmptyString
  ∧ toLowerCase (ReportStatusMessage.status p) ∈ VALID_STATUSES.
Proof.
  rewrite validate_message_cases. repeat case_decide; naive_solver.
Qed.

(** C1. For every raw input, [validateToolParamValues] returns an error
    text exactly when the status is empty, the payload text is empty, or
    the lower-cased status is not one of success, failure, rejected,
    interrupted; otherwise it returns null.  The error text is the
    non-empty message of the guard that failed, and [build] then hands
    back that error and constructs no invocation.  Both revisions of the
    tool. *)
Theorem validation_rejects_exactly :
  (∀ p : ReportStatus.ReportStatusParams,
     (is_Some (ReportStatus.validateToolParamValues p)
        ↔ rejected_input (ReportStatus.status p) (ReportStatus.result p))
     ∧ (ReportStatus.validateToolParamValues p = None
        ↔ ¬ rejected_input (ReportStatus.status p) (ReportStatus.result p))
     ∧ (∀ err, ReportStatus.validateToolParamValues p = Some err →
          err ≠ EmptyString
          ∧ err ∈ ["status is required"; "result is required";
                   invalid_status_message (ReportStatus.status p)]
          ∧ ReportStatus.build p = inl err))
  ∧ (∀ p : ReportStatusMessage.ReportStatusParams,
     (is_Some (ReportStatusMessage.validateToolParamValues p)
        ↔ rejected_input (ReportStatusMessage.status p) (ReportStatusMessage.message p))
     ∧ (ReportStatusMessage.validateToolParamValues p = None
        ↔ ¬ rejected_input (ReportStatusMessage.status p) (ReportStatusMessage.message p))
     ∧ (∀ err, ReportStatusMessage.validateToolParamValues p = Some err →
          err ≠ EmptyString
          ∧ err ∈ ["status is required"; "message is required";
                   invalid_status_message (ReportStatusMessage.status p)]
          ∧ ReportStatusMessage.build p = inl err)).
Proof.
  split; intros p; unfold rejected_input.
  - split_and!.
    + rewrite validate_cases. repeat case_decide; rewrite ?is_Some_alt; naive_solver.
    + rewrite validate_cases. repeat case_decide; naive_solver.
    + intros err Hv. unfold ReportStatus.build. rewrite Hv.
      rewrite validate_cases in Hv.
      repeat case_decide; simplify_eq; split_and!; try done; set_solver.
  - split_and!.
    + rewrite validate_message_cases.
      repeat case_decide; rewrite ?is_Some_alt; naive_solver.
    + rewrite validate_message_cases. repeat case_decide; naive_solver.
    + intros err Hv. unfold ReportStatusMessage.build. rewrite Hv.
      rewrite validate_message_cases in Hv.
      repeat case_decide; simplify_eq; split_and!; try done; set_solver.
Qed.

Lemma validation_rejects_exactly_witness :
  let p := ReportStatus.MkParams "done" "all good" None None in
  ReportStatus.build p = inl (invalid_status_message "done")
  ∧ invalid_status_message "done" ≠ EmptyString.
Proof.
  intros p.
  destruct (proj2 (proj2 (proj1 validation_rejects_exactly p))
              (invalid_status_message "done") eq_refl) as (Hne & _ & Hb).
  split; [exact Hb | exact Hne].
Defined.

Example validate_empty_status :
  ReportStatus.validateToolParamValues (ReportStatus.MkParams "" "x" None None)
  = Some "status is required".
Proof. reflexivity. Qed.

Example validate_empty_result :
  ReportStatus.validateToolParamValues (ReportStatus.MkParams "success" "" None None)
  = Some "result is required".
Proof. reflexivity. Qed.

Example validate_empty_message :
  ReportStatusMessage.validateToolParamValues (ReportStatusMessage.MkParams "success" "")
  = Some "message is required".
Proof. reflexivity. Qed.

Example validate_unknown_status :
  ReportStatus.validateToolParamValues (ReportStatus.MkParams "done" "x" None None)
  = Some ("Invalid status " +:+ DQ +:+ "done" +:+ DQ
          +:+ ". Must be one of: success, failure, rejected, interrupted (case-insensitive)").
Proof. reflexivity. Qed.

(** ** Normalization *)

Example normalize_upper :
  ReportStatus.status (ReportStatus.params (ReportStatus.createInvocation
    (ReportStatus.MkParams "SUCCESS" "ok" None None))) = "success".
Proof. reflexivity. Qed.

Example normalize_capitalized :
  ReportStatus.status (ReportStatus.params (ReportStatus.createInvocation
    (ReportStatus.MkParams "Success" "ok" None None))) = "success".
Proof. reflexivity. Qed.

Example normalize_lower :
  ReportStatus.status (ReportStatus.params (ReportStatus.createInvocation
    (ReportStatus.MkParams "success" "ok" None None))) = "success".
Proof. reflexivity. Qed.

Example normalize_mixed_message :
  ReportStatusMessage.status (ReportStatusMessage.params
    (ReportStatusMessage.createInvocation
       (ReportStatusMessage.MkParams "iNtErRuPtEd" "need help"))) = "interrupted".
Proof. reflexivity. Qed.

(** C2. For every input that validation accepts, the record built by
    [createInvocation] has as status the lower-case form of the supplied
    status, which is one of the four recognized values, and every payload
    field of the input is carried over unchanged.  Both revisions. *)
Theorem normalized_record_lowercase_verbatim :
  (∀ p : ReportStatus.ReportStatusParams,
     ReportStatus.validateToolParamValues p = None →
     let q := ReportStatus.params (ReportStatus.createInvocation p) in
     ReportStatus.build p = inr (ReportStatus.MkInvocation q)
     ∧ ReportStatus.status q = toLowerCase (ReportStatus.status p)
     ∧ ReportStatus.status q ∈ VALID_STATUSES
     ∧ ReportStatus.result q = ReportStatus.result p
     ∧ ReportStatus.reason q = ReportStatus.reason p
     ∧ ReportStatus.mismatch_detail q = ReportStatus.mismatch_detail p)
  ∧ (∀ p : ReportStatusMessage.ReportStatusParams,
     ReportStatusMessage.validateToolParamValues p = None →
     let q := ReportStatusMessage.params (ReportStatusMessage.createInvocation p) in
     ReportStatusMessage.build p = inr (ReportStatusMessage.MkInvocation q)
     ∧ ReportStatusMessage.status q = toLowerCase (ReportStatusMessage.status p)
     ∧ ReportStatusMessage.status q ∈ VALID_STATUSES
     ∧ ReportStatusMessage.message q = ReportStatusMessage.message p).
Proof.
  split; intros p Hv.
  - unfold ReportStatus.build. rewrite Hv.
    apply validate_accepts in Hv as (_ & _ & Hin).
    cbn. split_and!; done.
  - unfold ReportStatusMessage.build. rewrite Hv.
    apply validate_message_accepts in Hv as (_ & _ & Hin).
    cbn. split_and!; done.
Qed.

Lemma normalized_record_lowercase_verbatim_witness :
  let p := ReportStatus.MkParams "Rejected" "  out of scope  " (Some "") (Some " n/a ") in
  let q := ReportStatus.params (ReportStatus.createInvocation p) in
  ReportStatus.status q = "rejected"
  ∧ ReportStatus.result q = "  out of scope  "
  ∧ ReportStatus.reason q = Some EmptyString
  ∧ ReportStatus.mismatch_detail q = Some " n/a ".
Proof.
  intros p q.
  destruct (proj1 normalized_record_lowercase_verbatim p eq_refl)
    as (_ & Hs & _ & Hr & Hre & Hm).
  split_and!; [exact Hs | exact Hr | exact Hre | exact Hm].
Defined.

(** C9. Normalization is stable: the record built from an accepted input
    passes validation again, building from it gives the same record, and
    lower-casing a status twice is lower-casing it once.  Both revisions. *)
Theorem normalization_stable :
  (∀ s : string, toLowerCase (toLowerCase s) = toLowerCase s)
  ∧ (∀ p : ReportStatus.ReportStatusParams,
       ReportStatus.validateToolParamValues p = None →
       let q := ReportStatus.params (ReportStatus.createInvocation p) in
       ReportStatus.validateToolParamValues q = None
       ∧ ReportStatus.params (ReportStatus.createInvocation q) = q
       ∧ ReportStatus.build q = ReportStatus.build p)
  ∧ (∀ p : ReportStatusMessage.ReportStatusParams,
       ReportStatusMessage.validateToolParamValues p = None →
       let q := ReportStatusMessage.params (ReportStatusMessage.createInvocation p) in
       ReportStatusMessage.validateToolParamValues q = None
       ∧ ReportStatusMessage.params (ReportStatusMessage.createInvocation q) = q
       ∧ ReportStatusMessage.build q = ReportStatusMessage.build p).
Proof.
  split; [exact toLowerCase_idemp|].
  split; intros p Hv q.
  - assert (Hq : ReportStatus.validateToolParamValues q = None).
    { apply validate_accepts in Hv as (Hs & Hr & Hin).
      apply validate_accepts. subst q; cbn.
      rewrite toLowerCase_idemp, toLowerCase_empty. done. }
    assert (Hid : ReportStatus.params (ReportStatus.createInvocation q) = q).
    { subst q; cbn. by rewrite toLowerCase_idemp. }
    split_and!; [done..|].
    unfold ReportStatus.build. rewrite Hq, Hv.
    f_equal. destruct (ReportStatus.createInvocation q) as [q'] eqn:E.
    cbn in Hid. by subst q'.
  - assert (Hq : ReportStatusMessage.validateToolParamValues q = None).
    { apply validate_message_accepts in Hv as (Hs & Hr & Hin).
      apply validate_message_accepts. subst q; cbn.
      rewrite toLowerCase_idemp, toLowerCase_empty. done. }
    assert (Hid : ReportStatusMessage.params (ReportStatusMessage.createInvocation q) = q).
    { subst q; cbn. by rewrite toLowerCase_idemp. }
    split_and!; [done..|].
    unfold ReportStatusMessage.build. rewrite Hq, Hv.
    f_equal. destruct (ReportStatusMessage.createInvocation q) as [q'] eqn:E.
    cbn in Hid. by subst q'.
Qed.

Lemma normalization_stable_witness :
  let p := ReportStatus.MkParams "FAILURE" "disk full" (Some "ENOSPC") None in
  let q := ReportStatus.params (ReportStatus.createInvocation p) in
  ReportStatus.validateToolParamValues q = None
  ∧ ReportStatus.params (ReportStatus.createInvocation q) = q.
Proof.
  intros p q.
  destruct (proj1 (proj2 normalization_stable) p eq_refl) as (Hv & Hid & _).
  split; [exact Hv | exact Hid].
Defined.

(** ** The reporting action *)

Lemma append_assoc (a b c : string) : (a +:+ b) +:+ c = a +:+ (b +:+ c).
Proof.
  induction a as [|x a IH]; [reflexivity|].
  change (String x ((a +:+ b) +:+ c) = String x (a +:+ (b +:+ c))).
  by rewrite IH.
Qed.

Lemma one_line_append (a b : string) :
  one_line (a +:+ b) = one_line a && one_line b.
Proof.
  induction a as [|x a IH]; [reflexivity|].
  change (negb (Ascii.eqb x (ascii_of_N 10)) && one_line (a +:+ b)
          = negb (Ascii.eqb x (ascii_of_N 10)) && one_line a && one_line b).
  rewrite IH. by rewrite andb_assoc.
Qed.

Lemma split_lines_nonempty (s : string) : split_lines s ≠ [].
Proof.
  induction s as [|c s IH]; [done|].
  simpl. destruct (Ascii.eqb c _); [done|]. by destruct (split_lines s).
Qed.

Lemma split_lines_one_line (s : string) :
  one_line s = true → split_lines s = [s].
Proof.
  induction s as [|c s IH]; [done|].
  simpl. destruct (Ascii.eqb c _); [done|].
  intros H. by rewrite (IH H).
Qed.

(** A line, a line feed, more text: the line, then the lines of the rest. *)
Lemma split_lines_cons (l rest : string) :
  one_line l = true →
  split_lines (l +:+ LF +:+ rest) = l :: split_lines rest.
Proof.
  induction l as [|c l IH]; intros H.
  - reflexivity.
  - change ((String c l) +:+ LF +:+ rest) with (String c (l +:+ LF +:+ rest)).
    simpl in H |- *. destruct (Ascii.eqb c _); [done|].
    by rewrite (IH H).
Qed.

Lemma split_lines_join (ls : list string) :
  ls ≠ [] → forallb one_line ls = true → split_lines (join LF ls) = ls.
Proof.
  induction ls as [|l ls IH]; [done|].
  intros _ H. simpl in H. apply andb_true_iff in H as [Hl Hls].
  destruct ls as [|l' ls].
  - simpl. by apply split_lines_one_line.
  - change (join LF (l :: l' :: ls)) with (l +:+ LF +:+ join LF (l' :: ls)).
    rewrite split_lines_cons by done. f_equal. by apply IH.
Qed.

Lemma optional_line_append (label : string) (field : option string) (acc : string) :
  (if truthy_opt field then acc +:+ (LF +:+ label +:+ interpolate field) else acc)
  = match optional_line label field with
    | [] => acc
    | l :: _ => acc +:+ LF +:+ l
    end.
Proof.
  destruct field as [v|]; [|reflexivity].
  simpl. by destruct (truthy v).
Qed.

(** The display string built by successive appends is the entries of
    [rendered_lines] separated by line feeds. *)
Lemma display_of_rendered (p : ReportStatus.NormalizedReportStatusParams) :
  ReportStatus.display_of p = join LF (rendered_lines p).
Proof.
  unfold ReportStatus.display_of, rendered_lines.
  rewrite !optional_line_append.
  destruct (optional_line "Reason: " (ReportStatus.reason p)) as [|r rs] eqn:Er;
    destruct (optional_line "Mismatch Detail: " (ReportStatus.mismatch_detail p))
      as [|m ms] eqn:Em.
  - cbn [app join]. by rewrite !append_assoc.
  - assert (ms = []) as ->.
    { unfold optional_line in Em. repeat case_match; by simplify_eq. }
    cbn [app join]. by rewrite !append_assoc.
  - assert (rs = []) as ->.
    { unfold optional_line in Er. repeat case_match; by simplify_eq. }
    cbn [app join]. by rewrite !append_assoc.
  - assert (ms = []) as ->.
    { unfold optional_line in Em. repeat case_match; by simplify_eq. }
    assert (rs = []) as ->.
    { unfold optional_line in Er. repeat case_match; by simplify_eq. }
    cbn [app join]. by rewrite !append_assoc.
Qed.

Lemma stringify_params_json (p : ReportStatus.NormalizedReportStatusParams) :
  ReportStatus.stringify_params p = json_of_record p.
Proof.
  unfold ReportStatus.stringify_params, json_of_record, stringify_object.
  by destruct (ReportStatus.reason p), (ReportStatus.mismatch_detail p).
Qed.

Lemma optional_line_length (label : string) (field : option string) :
  length (optional_line label field) = if truthy_opt field then 1 else 0.
Proof.
  destruct field as [v|]; [|done]. simpl. by destruct (truthy v).
Qed.

Lemma optional_line_one_line (label : string) (field : option string) :
  one_line label = true →
  one_line (interpolate field) = true →
  forallb one_line (optional_line label field) = true.
Proof.
  intros Hl Hf. destruct field as [v|]; [|done].
  simpl in *. destruct (truthy v); [|done].
  simpl. by rewrite one_line_append, Hl, Hf.
Qed.

(** A text, a line feed, more text: the lines of the one, then the lines
    of the other. *)
Lemma split_lines_append (a rest : string) :
  split_lines (a +:+ LF +:+ rest) = split_lines a ++ split_lines rest.
Proof.
  induction a as [|c a IH]; [reflexivity|].
  change ((String c a) +:+ LF +:+ rest) with (String c (a +:+ LF +:+ rest)).
  simpl. rewrite IH. destruct (Ascii.eqb c _); [done|].
  destruct (split_lines a) as [|l ls] eqn:E; [by apply split_lines_nonempty in E|].
  reflexivity.
Qed.

(** The lines of entries joined by line feeds are the lines of each entry,
    in order. *)
Lemma split_lines_join_entries (ls : list string) :
  ls ≠ [] → split_lines (join LF ls) = ls ≫= split_lines.
Proof.
  induction ls as [|l ls IH]; [done|]. intros _.
  destruct ls as [|l' ls].
  - simpl. by rewrite app_nil_r.
  - change (join LF (l :: l' :: ls)) with (l +:+ LF +:+ join LF (l' :: ls)).
    rewrite split_lines_append, IH by done. reflexivity.
Qed.

(** C3, as amended.  For every normalized record, [execute] resolves to
    exactly two outputs: [llmContent], one part holding the JSON object of
    all fields the record holds, and [returnDisplay], one entry per
    populated field, the entries separated by line feeds: the status, then
    the result, then the reason and the mismatch detail when they are
    populated; an absent optional field has no entry.  The lines of the
    display are the lines of the entries in order, so every entry starts
    on a line of its own; an entry is one line when its field contains no
    line feed, and then the lines of the display are exactly the entries.
    Both revisions. *)
Theorem execute_two_outputs :
  (∀ (this : ReportStatus.ReportStatusToolInvocation) (signal : AbortSignal)
     (log : list Effect),
     let p := ReportStatus.params this in
     ReportStatus.execute this signal log
       = ({| llmContent := [ {| text := json_of_record p |} ];
             returnDisplay := join LF (rendered_lines p) |}, log)
     ∧ length (rendered_lines p)
       = 2 + (if truthy_opt (ReportStatus.reason p) then 1 else 0)
           + (if truthy_opt (ReportStatus.mismatch_detail p) then 1 else 0)
     ∧ (ReportStatus.reason p = None → optional_line "Reason: " (ReportStatus.reason p) = [])
     ∧ (ReportStatus.mismatch_detail p = None →
        optional_line "Mismatch Detail: " (ReportStatus.mismatch_detail p) = [])
     ∧ (one_line (ReportStatus.status p) = true →
        one_line (ReportStatus.result p) = true →
        one_line (interpolate (ReportStatus.reason p)) = true →
        one_line (interpolate (ReportStatus.mismatch_detail p)) = true →
        split_lines (returnDisplay (ReportStatus.execute this signal log).1)
          = rendered_lines p)
     ∧ split_lines (returnDisplay (ReportStatus.execute this signal log).1)
       = rendered_lines p ≫= split_lines)
  ∧ (∀ (this : ReportStatusMessage.ReportStatusToolInvocation) (signal : AbortSignal)
       (log : list Effect),
     let p := ReportStatusMessage.params this in
     ReportStatusMessage.execute this signal log
       = ({| llmContent := [ {| text := json_of_record_message p |} ];
             returnDisplay := join LF (rendered_lines_message p) |}, log)
     ∧ (one_line (ReportStatusMessage.status p) = true →
        one_line (ReportStatusMessage.message p) = true →
        split_lines (returnDisplay (ReportStatusMessage.execute this signal log).1)
          = rendered_lines_message p)
     ∧ split_lines (returnDisplay (ReportStatusMessage.execute this signal log).1)
       = rendered_lines_message p ≫= split_lines).
Proof.
  split; intros this signal log p.
  - assert (He : ReportStatus.execute this signal log
       = ({| llmContent := [ {| text := json_of_record p |} ];
             returnDisplay := join LF (rendered_lines p) |}, log)).
    { unfold ReportStatus.execute, resolve.
      by rewrite stringify_params_json, display_of_rendered. }
    split_and!.
    + exact He.
    + unfold rendered_lines. rewrite !length_app, !optional_line_length.
      simpl. lia.
    + by intros ->.
    + by intros ->.
    + intros Hs Hr Hre Hm. rewrite He. cbn [fst returnDisplay].
      apply split_lines_join.
      * unfold rendered_lines. done.
      * unfold rendered_lines. rewrite !forallb_app.
        rewrite !optional_line_one_line by done.
        cbn [forallb]. rewrite !one_line_append, Hs, Hr. reflexivity.
    + rewrite He. cbn [fst returnDisplay].
      by apply split_lines_join_entries.
  - split_and!.
    + reflexivity.
    + intros Hs Hm. cbn [fst returnDisplay ReportStatusMessage.execute resolve].
      unfold ReportStatusMessage.display_of.
      change (split_lines (join LF (rendered_lines_message p)) = rendered_lines_message p).
      apply split_lines_join; [done|].
      unfold rendered_lines_message. cbn [forallb].
      rewrite !one_line_append. fold p. rewrite Hs, Hm. reflexivity.
    + cbn [fst returnDisplay ReportStatusMessage.execute resolve].
      unfold ReportStatusMessage.display_of.
      change (split_lines (join LF (rendered_lines_message p))
              = rendered_lines_message p ≫= split_lines).
      by apply split_lines_join_entries.
Qed.

Lemma execute_two_outputs_witness :
  let this := ReportStatus.MkInvocation
    (ReportStatus.MkParams "failure" "disk full" (Some "ENOSPC") None) in
  split_lines (returnDisplay (ReportStatus.execute this (MkAbortSignal false) []).1)
    = ["Status: failure"; "Result: disk full"; "Reason: ENOSPC"].
Proof.
  intros this.
  exact (proj1 (proj2 (proj2 (proj2 (proj2
    (proj1 execute_two_outputs this (MkAbortSignal false) [])))))
    eq_refl eq_refl eq_refl eq_refl).
Defined.

(** C3, as stated, fails: a result that holds a line feed takes two lines
    of the display, so the record has two populated fields and its display
    has three lines. *)
Lemma display_line_per_field_fails :
  let p := ReportStatus.MkParams "success" ("a" +:+ LF +:+ "b") None None in
  split_lines
    (returnDisplay
       (ReportStatus.execute (ReportStatus.MkInvocation p) (MkAbortSignal false) []).1)
  = ["Status: success"; "Result: a"; "b"]
  ∧ rendered_lines p = ["Status: success"; "Result: a" +:+ LF +:+ "b"]
  ∧ ¬ display_one_line_per_field p.
Proof.
  intros p. split_and!; [reflexivity..|].
  unfold display_one_line_per_field. discriminate.
Qed.

Example execute_json_all_fields :
  llmContent (ReportStatus.execute
    (ReportStatus.MkInvocation
       (ReportStatus.MkParams "rejected" "no network" None (Some "offline")))
    (MkAbortSignal false) []).1
  = [ {| text := "{" +:+ DQ +:+ "status" +:+ DQ +:+ ":" +:+ DQ +:+ "rejected" +:+ DQ
          +:+ "," +:+ DQ +:+ "result" +:+ DQ +:+ ":" +:+ DQ +:+ "no network" +:+ DQ
          +:+ "," +:+ DQ +:+ "mismatch_detail" +:+ DQ +:+ ":" +:+ DQ +:+ "offline" +:+ DQ
          +:+ "}" |} ].
Proof. reflexivity. Qed.

(** A payload with a line feed spreads over more than one line of the display. *)
Example execute_display_multiline_payload :
  split_lines (returnDisplay (ReportStatusMessage.execute
    (ReportStatusMessage.MkInvocation
       (ReportStatusMessage.MkParams "success" ("a" +:+ LF +:+ "b")))
    (MkAbortSignal false) []).1)
  = ["Status: success"; "Result: a"; "b"].
Proof. reflexivity. Qed.

(** ** The bridge *)

Import Bridge.

Lemma bind_unfold {A B} (m : Proc A) (k : A → Proc B) (p : Process) :
  (m ≫= k) p =
    match m p with
    | MkResult (Normal a) p' evs =>
        match k a p' with
        | MkResult c p'' evs' => MkResult c p'' (evs ++ evs')
        end
    | MkResult (Throw e) p' evs => MkResult (Throw e) p' evs
    | MkResult (Exit code) p' evs => MkResult (Exit code) p' evs
    end.
Proof. reflexivity. Qed.

Lemma call_unfold {T} (c : Call) (f : Process → ExtResult T) (p : Process) :
  call c f p =
    match f p with
    | MkExtResult out e (inl err) =>
        MkResult (Throw err) (MkProcess (argv p) e (cwd p))
          (Called c :: (ConsoleLog ByCollaborator <$> out))
    | MkExtResult out e (inr v) =>
        MkResult (Normal v) (MkProcess (argv p) e (cwd p))
          (Called c :: (ConsoleLog ByCollaborator <$> out))
    end.
Proof. reflexivity. Qed.

Lemma never_exits_ret {A} (a : A) : never_exits (mret a : Proc A).
Proof. intros p code. discriminate. Qed.

Lemma never_exits_bind {A B} (m : Proc A) (k : A → Proc B) :
  never_exits m → (∀ a, never_exits (k a)) → never_exits (m ≫= k).
Proof.
  intros Hm Hk p code. rewrite bind_unfold.
  specialize (Hm p). destruct (m p) as [[a|e|c] p' evs].
  - specialize (Hk a p' code). by destruct (k a p').
  - discriminate.
  - by specialize (Hm c).
Qed.

Lemma never_exits_call {T} (c : Call) (f : Process → ExtResult T) :
  never_exits (call c f).
Proof. intros p code. unfold call. by destruct (f p) as [out e [err|v]]. Qed.

Lemma never_exits_console_log (text : string) : never_exits (console_log text).
Proof. intros p code. discriminate. Qed.

Lemma never_exits_get_cwd : never_exits get_cwd.
Proof. intros p code. discriminate. Qed.

Lemma never_exits_get_argv : never_exits get_argv.
Proof. intros p code. discriminate. Qed.

Lemma never_exits_env_get (k : string) : never_exits (env_get k).
Proof. intros p code. discriminate. Qed.

Lemma never_exits_or_env (v : option string) (k : string) : never_exits (or_env v k).
Proof.
  unfold or_env. destruct (truthy_opt v); [apply never_exits_ret|apply never_exits_env_get].
Qed.

(** The configuration step returns or throws; it never ends the process. *)
Lemma never_exits_configure (X : Collaborators) (prompt : string) :
  never_exits (configure X prompt).
Proof.
  unfold configure, arg_or_env, getArgValue.
  repeat first
    [ apply never_exits_call
    | apply never_exits_get_cwd
    | apply never_exits_get_argv
    | apply never_exits_or_env
    | apply never_exits_console_log
    | apply never_exits_ret
    | apply never_exits_bind; [|intros ?] ].
Qed.

(** The end of the [try] block, and the [catch] block. *)
Lemma report_success (p : Process) :
  (console_log SUCCESS_MARKER;; process_exit 0 : Proc ()) p
  = MkResult (Exit 0) p [ConsoleLog ByBridge SUCCESS_MARKER; Exited 0].
Proof. reflexivity. Qed.

Lemma report_failure (e : Thrown) (p : Process) :
  (console_error [ArgText "Bridge Error:"; ArgValue e];;
   console_log (failure_marker e);; process_exit 1 : Proc ()) p
  = MkResult (Exit 1) p
      [ConsoleError [ArgText "Bridge Error:"; ArgValue e];
       ConsoleLog ByBridge (failure_marker e); Exited 1].
Proof. reflexivity. Qed.

(** The single run ends the process: with the success marker and code 0
    when the engine returns, with the failure marker of the thrown value
    and code 1 when anything in the [try] block throws. *)
Lemma run_cases (X : Collaborators) (config : Config X) (prompt promptId : string)
    (p : Process) :
  (∃ evs p',
     run X config prompt promptId p
     = MkResult (Exit 0) p' (evs ++ [ConsoleLog ByBridge SUCCESS_MARKER; Exited 0]))
  ∨ (∃ evs p' e,
     run X config prompt promptId p
     = MkResult (Exit 1) p'
         (evs ++ [ConsoleError [ArgText "Bridge Error:"; ArgValue e];
                  ConsoleLog ByBridge (failure_marker e); Exited 1])).
Proof.
  unfold run, try_catch. rewrite bind_unfold.
  cbv beta iota delta [env_set]. rewrite bind_unfold, call_unfold.
  destruct (createMinimalSettings X _) as [w1 e1 [err|ms]]; cbv beta iota.
  - right. rewrite report_failure. eexists _, _, err. reflexivity.
  - rewrite bind_unfold, call_unfold.
    destruct (runNonInteractive X config ms prompt promptId _) as [w2 e2 [err|[]]];
      cbv beta iota.
    + right. rewrite report_failure. eexists _, _, err. reflexivity.
    + left. rewrite report_success. eexists _, _.
      rewrite !app_assoc. reflexivity.
Qed.

(** When the engine throws, the [catch] block reports the thrown value. *)
Lemma run_engine_throws (X : Collaborators) (config : Config X)
    (prompt promptId : string) (p : Process)
    (w1 w2 : list string) (e1 e2 : gmap string string)
    (ms : LoadedSettings X) (err : Thrown) :
  createMinimalSettings X
    (MkProcess (argv p) (<["QWEN_DISABLE_TELEMETRY" := "true"]> (env p)) (cwd p))
    = MkExtResult w1 e1 (inr ms) →
  runNonInteractive X config ms prompt promptId (MkProcess (argv p) e1 (cwd p))
    = MkExtResult w2 e2 (inl err) →
  run X config prompt promptId p
  = MkResult (Exit 1) (MkProcess (argv p) e2 (cwd p))
      ([EnvSet "QWEN_DISABLE_TELEMETRY" "true"]
       ++ (Called CallCreateMinimalSettings :: (ConsoleLog ByCollaborator <$> w1))
       ++ (Called CallRunNonInteractive :: (ConsoleLog ByCollaborator <$> w2))
       ++ [ConsoleError [ArgText "Bridge Error:"; ArgValue err];
           ConsoleLog ByBridge (failure_marker err); Exited 1]).
Proof.
  intros H1 H2.
  unfold run, try_catch. rewrite bind_unfold.
  cbv beta iota delta [env_set]. rewrite bind_unfold, call_unfold, H1.
  cbv beta iota. rewrite bind_unfold, call_unfold.
  cbn [argv cwd env]. rewrite H2. cbv beta iota.
  rewrite report_failure. cbn [argv cwd env].
  by rewrite <- !app_assoc.
Qed.

(** When the engine returns, the [try] block prints the success marker. *)
Lemma run_engine_returns (X : Collaborators) (config : Config X)
    (prompt promptId : string) (p : Process)
    (w1 w2 : list string) (e1 e2 : gmap string string) (ms : LoadedSettings X) :
  createMinimalSettings X
    (MkProcess (argv p) (<["QWEN_DISABLE_TELEMETRY" := "true"]> (env p)) (cwd p))
    = MkExtResult w1 e1 (inr ms) →
  runNonInteractive X config ms prompt promptId (MkProcess (argv p) e1 (cwd p))
    = MkExtResult w2 e2 (inr ()) →
  run X config prompt promptId p
  = MkResult (Exit 0) (MkProcess (argv p) e2 (cwd p))
      ([EnvSet "QWEN_DISABLE_TELEMETRY" "true"]
       ++ (Called CallCreateMinimalSettings :: (ConsoleLog ByCollaborator <$> w1))
       ++ (Called CallRunNonInteractive :: (ConsoleLog ByCollaborator <$> w2))
       ++ [ConsoleLog ByBridge SUCCESS_MARKER; Exited 0]).
Proof.
  intros H1 H2.
  unfold run, try_catch. rewrite bind_unfold.
  cbv beta iota delta [env_set]. rewrite bind_unfold, call_unfold, H1.
  cbv beta iota. rewrite bind_unfold, call_unfold.
  cbn [argv cwd env]. rewrite H2. cbv beta iota.
  rewrite report_success. cbn [argv cwd env].
  reflexivity.
Qed.

(** The first lines of [main]: both telemetry switches, then the prompt. *)
Lemma read_prompt_cases (p : Process) :
  let p1 :=
    MkProcess (argv p)
      (<["QWEN_CODE_TELEMETRY_DISABLED" := "1"]>
         (<["QWEN_DISABLE_TELEMETRY" := "true"]> (env p)))
      (cwd p) in
  read_prompt p =
    if truthy_opt (argv p !! 2)
    then MkResult (Normal (interpolate (argv p !! 2))) p1
           [EnvSet "QWEN_DISABLE_TELEMETRY" "true";
            EnvSet "QWEN_CODE_TELEMETRY_DISABLED" "1"; ArgvRead]
    else MkResult (Exit 1) p1
           [EnvSet "QWEN_DISABLE_TELEMETRY" "true";
            EnvSet "QWEN_CODE_TELEMETRY_DISABLED" "1"; ArgvRead;
            ConsoleError [ArgText USAGE]; Exited 1].
Proof.
  unfold read_prompt. rewrite bind_unfold.
  cbv beta iota delta [env_set]. rewrite bind_unfold.
  cbn [argv cwd env]. rewrite bind_unfold.
  cbv beta iota delta [get_argv]. cbn [argv cwd env].
  destruct (truthy_opt (argv p !! 2)); reflexivity.
Qed.

Lemma main_unfold (X : Collaborators) (p : Process) :
  main X p =
    match read_prompt p with
    | MkResult (Normal prompt) p1 evs1 =>
        match configure X prompt p1 with
        | MkResult (Normal (config, promptId)) p2 evs2 =>
            match run X config prompt promptId p2 with
            | MkResult c p3 evs3 => MkResult c p3 (evs1 ++ evs2 ++ evs3)
            end
        | MkResult (Throw e) p2 evs2 => MkResult (Throw e) p2 (evs1 ++ evs2)
        | MkResult (Exit code) p2 evs2 => MkResult (Exit code) p2 (evs1 ++ evs2)
        end
    | MkResult (Throw e) p1 evs1 => MkResult (Throw e) p1 evs1
    | MkResult (Exit code) p1 evs1 => MkResult (Exit code) p1 evs1
    end.
Proof.
  unfold main. rewrite bind_unfold.
  destruct (read_prompt p) as [[prompt|e|code] p1 evs1]; [|done..].
  rewrite bind_unfold.
  destruct (configure X prompt p1) as [[[config promptId]|e|code] p2 evs2]; [|done..].
  by destruct (run X config prompt promptId p2).
Qed.

(** *** Standard output *)

Lemma logged_app (evs evs' : list Event) : logged (evs ++ evs') = logged evs ++ logged evs'.
Proof. unfold logged. apply bind_app. Qed.

Lemma stdout_lines_app (evs evs' : list Event) :
  stdout_lines (evs ++ evs') = stdout_lines evs ++ stdout_lines evs'.
Proof. unfold stdout_lines. by rewrite logged_app, bind_app. Qed.

Lemma last_stdout_line_final_log (evs : list Event) (w : Writer) (text : string) (code : Z) :
  last_stdout_line (evs ++ [ConsoleLog w text; Exited code]) = last (split_lines text).
Proof.
  unfold last_stdout_line. rewrite stdout_lines_app, last_app.
  change (stdout_lines [ConsoleLog w text; Exited code]) with (split_lines text ++ []).
  rewrite app_nil_r.
  destruct (last (split_lines text)) eqn:E; [done|].
  apply last_None in E. by apply split_lines_nonempty in E.
Qed.

Lemma failure_marker_one_line (e : Thrown) :
  one_line (String_ e) = true → split_lines (failure_marker e) = [failure_marker e].
Proof.
  intros H. apply split_lines_one_line. unfold failure_marker.
  rewrite !one_line_append, H. reflexivity.
Qed.

(** *** Missing prompt *)

(** C5. Invoked with no prompt argument (nothing at index 2 of the
    argument vector, or the empty string there), the bridge prints the
    usage message on standard error and exits with code 1; nothing is
    written to standard output, so no marker line is printed. *)
Theorem no_prompt_usage_exit_1 (X : Collaborators) (p : Process) :
  truthy_opt (argv p !! 2) = false →
  let r := main X p in
  completion r = Exit 1
  ∧ events r = [EnvSet "QWEN_DISABLE_TELEMETRY" "true";
                EnvSet "QWEN_CODE_TELEMETRY_DISABLED" "1"; ArgvRead;
                ConsoleError [ArgText USAGE]; Exited 1]
  ∧ logged (events r) = []
  ∧ filter (λ l, is_marker_line l = true) (stdout_lines (events r)) = [].
Proof.
  intros H r. subst r. rewrite main_unfold.
  pose proof (read_prompt_cases p) as Hr. cbv zeta in Hr. rewrite H in Hr.
  rewrite Hr. cbv beta iota. cbn [completion events].
  split_and!; reflexivity.
Qed.

Lemma no_prompt_usage_exit_1_witness :
  let r := main (scripted [] (inr ())) (started [] ∅) in
  exit_code r = Some 1%Z ∧ stdout_lines (events r) = [].
Proof.
  intros r.
  destruct (no_prompt_usage_exit_1 (scripted [] (inr ())) (started [] ∅) eq_refl)
    as (Hc & He & _ & _).
  subst r. unfold exit_code. rewrite Hc, He. split; reflexivity.
Defined.

(** *** Telemetry switches *)

(** C8. On every invocation, whatever the arguments and the environment
    the caller provides and whatever the collaborators do, the first two
    things [main] does are to set [QWEN_DISABLE_TELEMETRY] to [true] and
    [QWEN_CODE_TELEMETRY_DISABLED] to [1]; only then is the prompt read,
    in an environment that holds both values, and everything else
    (settings, configuration, the run) comes after. *)
Theorem telemetry_disabled_first (X : Collaborators) (p : Process) :
  (∃ rest,
     events (main X p)
     = EnvSet "QWEN_DISABLE_TELEMETRY" "true"
       :: EnvSet "QWEN_CODE_TELEMETRY_DISABLED" "1" :: ArgvRead :: rest)
  ∧ env (final (read_prompt p)) !! "QWEN_DISABLE_TELEMETRY" = Some "true"
  ∧ env (final (read_prompt p)) !! "QWEN_CODE_TELEMETRY_DISABLED" = Some "1".
Proof.
  pose proof (read_prompt_cases p) as Hr. cbv zeta in Hr.
  split.
  - rewrite main_unfold, Hr.
    destruct (truthy_opt (argv p !! 2)); cbv beta iota.
    + destruct (configure X _ _) as [[[config promptId]|e|code] p2 evs2].
      * destruct (run X config _ promptId p2) as [c p3 evs3]. by eexists.
      * by eexists.
      * by eexists.
    + by eexists.
  - rewrite Hr.
    destruct (truthy_opt (argv p !! 2)); cbn [final env];
      (split; [by rewrite lookup_insert_ne, lookup_insert_eq
              | by rewrite lookup_insert_eq]).
Qed.

(** *** The marker *)

Lemma main_exit_cases (X : Collaborators) (p : Process) (code : Z) :
  exit_code (main X p) = Some code →
  (code = 1%Z ∧ truthy_opt (argv p !! 2) = false)
  ∨ (code = 0%Z ∧ ∃ evs,
       events (main X p) = evs ++ [ConsoleLog ByBridge SUCCESS_MARKER; Exited 0])
  ∨ (code = 1%Z ∧ ∃ evs e,
       events (main X p)
       = evs ++ [ConsoleError [ArgText "Bridge Error:"; ArgValue e];
                 ConsoleLog ByBridge (failure_marker e); Exited 1]).
Proof.
  unfold exit_code. rewrite main_unfold.
  pose proof (read_prompt_cases p) as Hr. cbv zeta in Hr. rewrite Hr.
  destruct (truthy_opt (argv p !! 2)); cbv beta iota.
  - pose proof (never_exits_configure X (interpolate (argv p !! 2))) as Hn.
    match goal with |- context [configure X ?a ?b] => specialize (Hn b) end.
    destruct (configure X _ _) as [[[config promptId]|e|c] p2 evs2].
    + destruct (run_cases X config (interpolate (argv p !! 2)) promptId p2)
        as [(evs & p' & ->)|(evs & p' & e & ->)]; cbn [completion events];
        intros [= <-].
      * right; left. split; [done|]. eexists. by rewrite !app_assoc.
      * right; right. split; [done|]. eexists _, e. by rewrite !app_assoc.
    + discriminate.
    + by specialize (Hn c).
  - cbn [completion]. intros [= <-]. by left.
Qed.

(** C10. On a successful run (the process exits with code 0) the last
    thing the bridge logs, and the last line of standard output, is the
    constant success marker: it is the same for every collaborator
    behaviour, every instruction and every output of the run. *)
Theorem success_marker_constant (X : Collaborators) (p : Process) :
  exit_code (main X p) = Some 0%Z →
  (∃ evs, events (main X p) = evs ++ [ConsoleLog ByBridge SUCCESS_MARKER; Exited 0])
  ∧ last (logged_by_bridge (events (main X p))) = Some SUCCESS_MARKER
  ∧ last_stdout_line (events (main X p)) = Some SUCCESS_MARKER.
Proof.
  intros H. apply main_exit_cases in H as [[? _]|[[_ [evs He]]|[? _]]]; [done| |done].
  split_and!.
  - by exists evs.
  - rewrite He. unfold logged_by_bridge. rewrite bind_app, last_app. reflexivity.
  - rewrite He, last_stdout_line_final_log. reflexivity.
Qed.

Lemma success_marker_constant_witness :
  last_stdout_line
    (events (main (scripted ["{}"; "report_status: failure"] (inr ()))
                  (started ["write hello.txt"] ∅)))
  = Some SUCCESS_MARKER.
Proof.
  exact (proj2 (proj2 (success_marker_constant
    (scripted ["{}"; "report_status: failure"] (inr ()))
    (started ["write hello.txt"] ∅) eq_refl))).
Defined.

(** The engine throws [Error("boom")]: exit code 1, and the last line of
    standard output is the failure marker with the error's string form. *)
Example bridge_boom :
  let r := main (scripted [] (inl (Error "boom"))) (started ["do the task"] ∅) in
  exit_code r = Some 1%Z
  ∧ last_stdout_line (events r)
    = Some (MARKER +:+ "{" +:+ DQ +:+ "status" +:+ DQ +:+ ":" +:+ DQ +:+ "failure" +:+ DQ
            +:+ "," +:+ DQ +:+ "result" +:+ DQ +:+ ":" +:+ DQ
            +:+ "Bridge Exception: Error: boom" +:+ DQ +:+ "}").
Proof. split; reflexivity. Qed.

(** Whenever the run throws a value whose string form has no line feed,
    the failure marker is one line, the last of standard output, and the
    exit code is 1. *)
Lemma failure_marker_last_line (X : Collaborators) (p : Process) (evs : list Event)
    (e : Thrown) :
  events (main X p)
  = evs ++ [ConsoleError [ArgText "Bridge Error:"; ArgValue e];
            ConsoleLog ByBridge (failure_marker e); Exited 1] →
  one_line (String_ e) = true →
  last_stdout_line (events (main X p)) = Some (failure_marker e).
Proof.
  intros He Hl. rewrite He.
  rewrite (assoc_L (++) evs [ConsoleError _] [_; _] : evs ++ [_; _; _] = _).
  rewrite last_stdout_line_final_log.
  by rewrite failure_marker_one_line.
Qed.

(** C4. The marker is built by pasting [String(e)] between quotes, without
    escaping.  When the engine throws [Error("a\nb")] the process exits
    with code 1, but the marker text is spread over two lines of standard
    output: the last line is the letter b with the closing quote and brace,
    which does not start with [__ONEAGENT_RESULT__:], and the line that
    does start with it is cut off after [Error: a]. *)
Theorem marker_split_by_line_feed :
  let r := main (scripted [] (inl (Error ("a" +:+ LF +:+ "b"))))
                (started ["do the task"] ∅) in
  exit_code r = Some 1%Z
  ∧ stdout_lines (events r)
    = ["[bridge] Config: model=undefined, base_url=undefined...";
       "[bridge] Starting native CLI loop...";
       MARKER +:+ "{" +:+ DQ +:+ "status" +:+ DQ +:+ ":" +:+ DQ +:+ "failure" +:+ DQ
         +:+ "," +:+ DQ +:+ "result" +:+ DQ +:+ ":" +:+ DQ
         +:+ "Bridge Exception: Error: a";
       "b" +:+ DQ +:+ "}"]
  ∧ last_stdout_line (events r) = Some ("b" +:+ DQ +:+ "}")
  ∧ is_marker_line ("b" +:+ DQ +:+ "}") = false.
Proof. split_and!; reflexivity. Qed.

(** *** Flags and environment variables *)

Lemma indexOf_None (a : list string) (x : string) : indexOf a x = None ↔ x ∉ a.
Proof.
  induction a as [|y a IH]; simpl.
  - split; [intros _; apply not_elem_of_nil | done].
  - rewrite not_elem_of_cons. destruct (String.eqb_spec y x) as [->|Hne].
    + split; [done | intros [? _]; done].
    + destruct (indexOf a x); simpl.
      * split; [done|]. intros [_ H]. by apply IH in H.
      * split; [|done]. intros _. split; [congruence|]. by apply IH.
Qed.

(** [indexOf] finds the first place where the flag stands. *)
Lemma indexOf_Some (a : list string) (x : string) (i : nat) :
  indexOf a x = Some i → a !! i = Some x ∧ ∀ j, j < i → a !! j ≠ Some x.
Proof.
  revert i. induction a as [|y a IH]; intros i; simpl; [done|].
  destruct (String.eqb_spec y x) as [->|Hne].
  - intros [= <-]. split; [done|]. intros j Hj. lia.
  - destruct (indexOf a x) as [i'|]; simpl; [|done].
    intros [= <-]. destruct (IH i' eq_refl) as [H1 H2].
    split; [done|]. intros [|j] Hj; simpl; [congruence|].
    apply H2. lia.
Qed.

Lemma arg_or_env_unfold (argName k : string) (p : Process) :
  arg_or_env argName k p =
    match arg_value (argv p) argName with
    | Some v => MkResult (Normal (Some v)) p [ArgvRead]
    | None => MkResult (Normal (env p !! k)) p [ArgvRead; EnvRead k]
    end.
Proof.
  unfold arg_or_env, getArgValue. rewrite !bind_unfold.
  cbv beta iota delta [get_argv]. cbn [mret proc_ret ret].
  unfold arg_value, or_env.
  destruct (indexOf (argv p) argName) as [i|]; [|reflexivity].
  destruct (argv p !! (i + 1)) as [v|] eqn:E; [|reflexivity].
  cbn [truthy_opt]. destruct (truthy v) eqn:Ht; [|reflexivity].
  cbn [truthy_opt]. by rewrite Ht.
Qed.

(** The configuration snapshot for a run with a model and a base URL given
    by flags and the API key given by the environment. *)
Example configure_snapshot :
  completion (configure (scripted [] (inr ())) "do the task"
    (started ["do the task"; "--model"; "qwen3-coder"; "--openai-base-url"; "http://localhost:8000/v1"]
       {["OPENAI_API_KEY" := "sk-env"; "OPENAI_BASE_URL" := "http://env/v1"]}))
  = Normal
      ({| model := Some "qwen3-coder"; debug := true; prompt := "do the task";
          allFiles := false; showMemoryUsage := false; yolo := true;
          approvalMode := yolo_mode; telemetry := false; checkpointing := false;
          telemetryLogPrompts := false; experimentalAcp := false;
          experimentalSkills := false; listExtensions := false; openaiLogging := true;
          openaiApiKey := Some "sk-env";
          openaiBaseUrl := Some "http://localhost:8000/v1";
          openaiLoggingDir := "/tmp/qwen-logs"; outputFormat := stream_json;
          includePartialMessages := false; chatRecording := false;
          continue := false; authType := openai_auth |},
       "prompt-id").
Proof. reflexivity. Qed.

(** C6, as the code has it.  For a flag and its environment variable (the
    bridge uses [--openai-api-key] with [OPENAI_API_KEY] and
    [--openai-base-url] with [OPENAI_BASE_URL]): when the flag stands in
    the argument vector and a non-empty value follows its first
    occurrence, that value is used and the environment is not read; when
    the flag is absent, or nothing or the empty string follows it, the
    value of the environment variable is used. *)
Theorem flag_value_else_environment (argName k : string) (p : Process) :
  (∀ i v, indexOf (argv p) argName = Some i →
          argv p !! (i + 1) = Some v → v ≠ EmptyString →
          arg_or_env argName k p = MkResult (Normal (Some v)) p [ArgvRead])
  ∧ (∀ i, indexOf (argv p) argName = Some i →
          argv p !! (i + 1) = None ∨ argv p !! (i + 1) = Some EmptyString →
          arg_or_env argName k p
          = MkResult (Normal (env p !! k)) p [ArgvRead; EnvRead k])
  ∧ (argName ∉ argv p →
     arg_or_env argName k p = MkResult (Normal (env p !! k)) p [ArgvRead; EnvRead k]).
Proof.
  rewrite arg_or_env_unfold. unfold arg_value. split_and!.
  - intros i v -> Hv Hne. rewrite Hv. cbn [truthy_opt].
    apply truthy_true in Hne. by rewrite Hne.
  - intros i -> [Hv|Hv]; by rewrite Hv.
  - intros H. apply indexOf_None in H. by rewrite H.
Qed.

Lemma flag_value_else_environment_witness :
  let p := started ["do the task"; "--openai-api-key"; "sk-flag"]
             {["OPENAI_API_KEY" := "sk-env"]} in
  completion (arg_or_env "--openai-api-key" "OPENAI_API_KEY" p) = Normal (Some "sk-flag")
  ∧ completion (arg_or_env "--openai-base-url" "OPENAI_BASE_URL" p) = Normal None.
Proof.
  intros p. split.
  - rewrite (proj1 (flag_value_else_environment "--openai-api-key" "OPENAI_API_KEY" p)
               3 "sk-flag" eq_refl eq_refl); [reflexivity | discriminate].
  - rewrite (proj2 (proj2
               (flag_value_else_environment "--openai-base-url" "OPENAI_BASE_URL" p))).
    + reflexivity.
    + apply indexOf_None. reflexivity.
Defined.

(** C6, as stated, fails: the flag is the last argument, so it is present
    and no value follows it; the bridge then takes the environment
    variable. *)
Lemma flag_without_value_uses_environment :
  let a := ["node"; "oneagent-bridge.js"; "do the task"; "--openai-api-key"] in
  let e : gmap string string := {["OPENAI_API_KEY" := "sk-env"]} in
  completion (arg_or_env "--openai-api-key" "OPENAI_API_KEY" (MkProcess a e "/work"))
    = Normal (Some "sk-env")
  ∧ indexOf a "--openai-api-key" = Some 3
  ∧ ¬ flag_priority_as_stated a e "--openai-api-key" "OPENAI_API_KEY" (Some "sk-env").
Proof.
  intros a e. split_and!; [reflexivity..|].
  intros [H _]. specialize (H 3 eq_refl). discriminate.
Qed.

(** ** Further properties of the status tool *)

Lemma lower_unit_variant (c : ascii) :
  is_lower_letter (lower_unit c) = true → unit_case_variant (lower_unit c) c = true.
Proof.
  destruct c as [[] [] [] [] [] [] [] []]; vm_compute; congruence.
Qed.

Lemma lower_unit_of_letter (a : ascii) :
  is_lower_letter a = true → lower_unit a = a ∧ lower_unit (upper_unit a) = a.
Proof.
  destruct a as [[] [] [] [] [] [] [] []]; vm_compute; (discriminate || done).
Qed.

Lemma lower_unit_eq_letter (a c : ascii) :
  is_lower_letter a = true → lower_unit c = a ↔ unit_case_variant a c = true.
Proof.
  intros Ha. split.
  - intros <-. by apply lower_unit_variant.
  - unfold unit_case_variant. rewrite orb_true_iff, !Ascii.eqb_eq.
    destruct (lower_unit_of_letter a Ha) as [H1 H2]. by intros [->| ->].
Qed.

Lemma toLowerCase_eq_lower (t s : string) :
  lower_letters t = true → toLowerCase s = t ↔ case_variant t s = true.
Proof.
  revert s. induction t as [|a t IH]; intros s Ht.
  - destruct s; simpl; split; congruence.
  - simpl in Ht. apply andb_true_iff in Ht as [Ha Ht].
    destruct s as [|c s]; simpl; [split; congruence|].
    rewrite andb_true_iff, <- (lower_unit_eq_letter a c Ha), <- (IH s Ht).
    split; [by intros [= -> ->] | by intros [-> ->]].
Qed.

Lemma valid_status_lower_letters (t : string) :
  t ∈ VALID_STATUSES → lower_letters t = true.
Proof.
  unfold VALID_STATUSES. rewrite !elem_of_cons, elem_of_nil.
  intros [->|[->|[->|[->|[]]]]]; reflexivity.
Qed.

Lemma lowercase_valid_iff_variant (s : string) :
  toLowerCase s ∈ VALID_STATUSES ↔ ∃ t, t ∈ VALID_STATUSES ∧ case_variant t s = true.
Proof.
  split.
  - intros H. exists (toLowerCase s). split; [done|].
    by apply toLowerCase_eq_lower; [apply valid_status_lower_letters|].
  - intros (t & Ht & Hv).
    apply toLowerCase_eq_lower in Hv; [|by apply valid_status_lower_letters].
    by rewrite Hv.
Qed.

Lemma case_variant_nonempty (t s : string) :
  t ∈ VALID_STATUSES → case_variant t s = true → s ≠ EmptyString.
Proof.
  intros Ht Hv ->. apply valid_status_nonempty in Ht. by destruct t.
Qed.

(** X1. Validation accepts an input exactly when its payload is not empty
    and its status is one of the four recognized values with any of its
    letters capitalized: the same length, letter for letter.  Nothing is
    trimmed, so a status with a blank before or after it is rejected.
    Both revisions. *)
Theorem accepted_iff_case_variant :
  (∀ p : ReportStatus.ReportStatusParams,
     ReportStatus.validateToolParamValues p = None
     ↔ ReportStatus.result p ≠ EmptyString
       ∧ ∃ t, t ∈ VALID_STATUSES ∧ case_variant t (ReportStatus.status p) = true)
  ∧ (∀ p : ReportStatusMessage.ReportStatusParams,
     ReportStatusMessage.validateToolParamValues p = None
     ↔ ReportStatusMessage.message p ≠ EmptyString
       ∧ ∃ t, t ∈ VALID_STATUSES ∧ case_variant t (ReportStatusMessage.status p) = true).
Proof.
  split; intros p.
  - rewrite validate_accepts, lowercase_valid_iff_variant. split.
    + naive_solver.
    + intros (Hr & t & Ht & Hv). split_and!; [|done|by exists t].
      by eapply case_variant_nonempty.
  - rewrite validate_message_accepts, lowercase_valid_iff_variant. split.
    + naive_solver.
    + intros (Hr & t & Ht & Hv). split_and!; [|done|by exists t].
      by eapply case_variant_nonempty.
Qed.

Example padded_status_rejected :
  ReportStatus.validateToolParamValues (ReportStatus.MkParams " success" "ok" None None)
    ≠ None
  ∧ ReportStatus.validateToolParamValues (ReportStatus.MkParams "success " "ok" None None)
    ≠ None.
Proof. split; discriminate. Qed.

(** X2. The guards of [validateToolParamValues] fire in a fixed order: an
    empty status is reported as such whatever the payload is; an empty
    payload is reported next; only then is the status compared, and the
    error for an unknown status quotes the status as the caller wrote it
    and lists the four values.  Both revisions. *)
Theorem validation_error_precedence :
  (∀ p : ReportStatus.ReportStatusParams,
     (ReportStatus.status p = EmptyString →
      ReportStatus.validateToolParamValues p = Some "status is required")
     ∧ (ReportStatus.status p ≠ EmptyString → ReportStatus.result p = EmptyString →
        ReportStatus.validateToolParamValues p = Some "result is required")
     ∧ (ReportStatus.status p ≠ EmptyString → ReportStatus.result p ≠ EmptyString →
        toLowerCase (ReportStatus.status p) ∉ VALID_STATUSES →
        ReportStatus.validateToolParamValues p
        = Some ("Invalid status " +:+ DQ +:+ ReportStatus.status p +:+ DQ
                +:+ ". Must be one of: success, failure, rejected, interrupted"
                +:+ " (case-insensitive)")))
  ∧ (∀ p : ReportStatusMessage.ReportStatusParams,
     (ReportStatusMessage.status p = EmptyString →
      ReportStatusMessage.validateToolParamValues p = Some "status is required")
     ∧ (ReportStatusMessage.status p ≠ EmptyString →
        ReportStatusMessage.message p = EmptyString →
        ReportStatusMessage.validateToolParamValues p = Some "message is required")
     ∧ (ReportStatusMessage.status p ≠ EmptyString →
        ReportStatusMessage.message p ≠ EmptyString →
        toLowerCase (ReportStatusMessage.status p) ∉ VALID_STATUSES →
        ReportStatusMessage.validateToolParamValues p
        = Some ("Invalid status " +:+ DQ +:+ ReportStatusMessage.status p +:+ DQ
                +:+ ". Must be one of: success, failure, rejected, interrupted"
                +:+ " (case-insensitive)"))).
Proof.
  split; intros p.
  - rewrite validate_cases. split_and!.
    + intros H. by rewrite decide_True.
    + intros H1 H2. by rewrite decide_False, decide_True.
    + intros H1 H2 H3. rewrite !decide_False by done.
      unfold invalid_status_message. do 5 f_equal.
  - rewrite validate_message_cases. split_and!.
    + intros H. by rewrite decide_True.
    + intros H1 H2. by rewrite decide_False, decide_True.
    + intros H1 H2 H3. rewrite !decide_False by done.
      unfold invalid_status_message. do 5 f_equal.
Qed.

Lemma validation_error_precedence_witness :
  ReportStatus.validateToolParamValues (ReportStatus.MkParams "" "" None None)
    = Some "status is required"
  ∧ ReportStatusMessage.validateToolParamValues (ReportStatusMessage.MkParams "ok" "")
    = Some "message is required".
Proof.
  split.
  - exact (proj1 (proj1 validation_error_precedence
                    (ReportStatus.MkParams "" "" None None)) eq_refl).
  - refine (proj1 (proj2 (proj2 validation_error_precedence
                    (ReportStatusMessage.MkParams "ok" ""))) _ eq_refl).
    discriminate.
Defined.

(** *** The serialization can be read back *)

Lemma unquote_quote_unit (c : ascii) (rest : string) :
  unquote InPlain (quote_unit c +:+ rest) = push c (unquote InPlain rest).
Proof.
  destruct c as [[] [] [] [] [] [] [] []]; reflexivity.
Qed.

Lemma unquote_quote_units (s rest : string) :
  unquote InPlain (quote_units s +:+ DQ +:+ rest) = Some (s, rest).
Proof.
  induction s as [|c s IH]; [reflexivity|].
  change (quote_units (String c s)) with (quote_unit c +:+ quote_units s).
  by rewrite append_assoc, unquote_quote_unit, IH.
Qed.

Lemma strip_append (pre s : string) : strip pre (pre +:+ s) = Some s.
Proof.
  induction pre as [|a pre IH]; [by destruct s|].
  change (String a pre +:+ s) with (String a (pre +:+ s)).
  simpl. by rewrite Ascii.eqb_refl.
Qed.

Lemma read_member_written (opening v rest : string) :
  read_member opening (opening +:+ quote_units v +:+ DQ +:+ rest) = Some (v, rest).
Proof.
  unfold read_member. by rewrite strip_append, unquote_quote_units.
Qed.

(** The text [JSON.stringify] writes for a record, member after member. *)
Lemma stringify_params_members (p : ReportStatus.NormalizedReportStatusParams) :
  ReportStatus.stringify_params p =
    KEY_STATUS +:+ quote_units (ReportStatus.status p) +:+ DQ
    +:+ KEY_RESULT +:+ quote_units (ReportStatus.result p) +:+ DQ
    +:+ match ReportStatus.reason p with
        | Some r => KEY_REASON +:+ quote_units r +:+ DQ
        | None => EmptyString
        end
    +:+ match ReportStatus.mismatch_detail p with
        | Some m => KEY_MISMATCH +:+ quote_units m +:+ DQ +:+ "}"
        | None => "}"
        end.
Proof.
  unfold ReportStatus.stringify_params, stringify_object.
  destruct (ReportStatus.reason p) as [r|], (ReportStatus.mismatch_detail p) as [m|];
    cbn [mbind list_bind stringify_member fst snd app join];
    unfold stringify_string; rewrite !append_assoc; reflexivity.
Qed.

Lemma stringify_params_message_members
    (p : ReportStatusMessage.NormalizedReportStatusParams) :
  ReportStatusMessage.stringify_params p =
    KEY_STATUS +:+ quote_units (ReportStatusMessage.status p) +:+ DQ
    +:+ KEY_MESSAGE +:+ quote_units (ReportStatusMessage.message p) +:+ DQ +:+ "}".
Proof.
  unfold ReportStatusMessage.stringify_params, stringify_object.
  cbn [mbind list_bind stringify_member fst snd app join].
  unfold stringify_string. rewrite !append_assoc. reflexivity.
Qed.

Lemma read_params_written (p : ReportStatus.ReportStatusParams) :
  read_params (ReportStatus.stringify_params p) = Some p.
Proof.
  rewrite stringify_params_members. unfold read_params.
  rewrite (read_member_written KEY_STATUS). cbv beta iota.
  rewrite (read_member_written KEY_RESULT). cbv beta iota.
  destruct p as [st res [r|] [m|]]; cbn [ReportStatus.reason ReportStatus.mismatch_detail
    ReportStatus.status ReportStatus.result].
  - rewrite !append_assoc, (read_member_written KEY_REASON). cbv beta iota.
    unfold read_tail. by rewrite (read_member_written KEY_MISMATCH).
  - rewrite !append_assoc, (read_member_written KEY_REASON). reflexivity.
  - change (read_member KEY_REASON
              (EmptyString +:+ KEY_MISMATCH +:+ quote_units m +:+ DQ +:+ "}"))
      with (@None (string * string)).
    change (EmptyString +:+ KEY_MISMATCH +:+ quote_units m +:+ DQ +:+ "}")
      with (KEY_MISMATCH +:+ quote_units m +:+ DQ +:+ "}").
    cbv beta iota. unfold read_tail. by rewrite (read_member_written KEY_MISMATCH).
  - reflexivity.
Qed.

Lemma read_params_message_written (p : ReportStatusMessage.ReportStatusParams) :
  read_params_message (ReportStatusMessage.stringify_params p) = Some p.
Proof.
  rewrite stringify_params_message_members. unfold read_params_message.
  rewrite (read_member_written KEY_STATUS). cbv beta iota.
  rewrite (read_member_written KEY_MESSAGE). by destruct p.
Qed.

(** X3. The machine-readable output loses nothing: two records whose
    [execute] yields the same [llmContent] are the same record, field for
    field, whatever characters the fields hold.  Both revisions. *)
Theorem llmContent_determines_record :
  (∀ (p q : ReportStatus.NormalizedReportStatusParams) (s s' : AbortSignal)
     (log log' : list Effect),
     llmContent (ReportStatus.execute (ReportStatus.MkInvocation p) s log).1
     = llmContent (ReportStatus.execute (ReportStatus.MkInvocation q) s' log').1 →
     p = q)
  ∧ (∀ (p q : ReportStatusMessage.NormalizedReportStatusParams) (s s' : AbortSignal)
       (log log' : list Effect),
     llmContent (ReportStatusMessage.execute (ReportStatusMessage.MkInvocation p) s log).1
     = llmContent
         (ReportStatusMessage.execute (ReportStatusMessage.MkInvocation q) s' log').1 →
     p = q).
Proof.
  split; intros p q s s' log log' H.
  - change ([MkPart (ReportStatus.stringify_params p)]
            = [MkPart (ReportStatus.stringify_params q)]) in H.
    assert (ReportStatus.stringify_params p = ReportStatus.stringify_params q) as Hs
      by congruence.
    clear H. rename Hs into H.
    pose proof (read_params_written p) as Hp.
    pose proof (read_params_written q) as Hq.
    rewrite H, Hq in Hp. by injection Hp.
  - change ([MkPart (ReportStatusMessage.stringify_params p)]
            = [MkPart (ReportStatusMessage.stringify_params q)]) in H.
    assert (ReportStatusMessage.stringify_params p
            = ReportStatusMessage.stringify_params q) as Hs by congruence.
    clear H. rename Hs into H.
    pose proof (read_params_message_written p) as Hp.
    pose proof (read_params_message_written q) as Hq.
    rewrite H, Hq in Hp. by injection Hp.
Qed.

Lemma llmContent_determines_record_witness :
  ReportStatus.MkParams "failure" "line one" (Some EmptyString) None
  = ReportStatus.MkParams "failure" "line one" (Some EmptyString) None.
Proof.
  exact (proj1 llmContent_determines_record
           (ReportStatus.MkParams "failure" "line one" (Some EmptyString) None)
           (ReportStatus.MkParams "failure" "line one" (Some EmptyString) None)
           (MkAbortSignal false) (MkAbortSignal true) [] [Retry] eq_refl).
Defined.

(** The display, in contrast, does not tell a reason from a second line of
    the result. *)
Example display_does_not_determine_record :
  returnDisplay (ReportStatus.execute (ReportStatus.MkInvocation
    (ReportStatus.MkParams "failure" ("a" +:+ LF +:+ "Reason: b") None None))
    (MkAbortSignal false) []).1
  = returnDisplay (ReportStatus.execute (ReportStatus.MkInvocation
    (ReportStatus.MkParams "failure" "a" (Some "b") None))
    (MkAbortSignal false) []).1.
Proof. reflexivity. Qed.

(** ** Further properties of the bridge *)

Lemma skeleton_app (evs evs' : list Event) :
  skeleton (evs ++ evs') = skeleton evs ++ skeleton evs'.
Proof.
  induction evs as [|[| | | |[] ?| | |] evs IH]; simpl; by rewrite ?IH.
Qed.

Lemma skeleton_collaborator_logs (out : list string) :
  skeleton (ConsoleLog ByCollaborator <$> out) = [].
Proof. induction out as [|t out IH]; [done|]. exact IH. Qed.

Lemma skeleton_call (c : Call) (out : list string) :
  skeleton (Called c :: (ConsoleLog ByCollaborator <$> out)) = [Called c].
Proof. simpl. by rewrite skeleton_collaborator_logs. Qed.

Lemma getArgValue_unfold (argName : string) (p : Process) :
  getArgValue argName p = MkResult (Normal (arg_value (argv p) argName)) p [ArgvRead].
Proof. reflexivity. Qed.

Lemma arg_or_env_events (argName k : string) (p : Process) :
  ∃ v, arg_or_env argName k p
       = MkResult (Normal v) p (option_reads (argv p) argName k).
Proof.
  rewrite arg_or_env_unfold. unfold option_reads.
  destruct (arg_value (argv p) argName); by eexists.
Qed.

Ltac trace_leaf :=
  cbn [events completion];
  rewrite ?skeleton_app, ?skeleton_call; cbn [skeleton app];
  split; [by eexists | first [by intros ? [=] | by intros]].

Ltac enter_call u :=
  rewrite bind_unfold, call_unfold;
  match goal with
  | |- context [match ?f ?p with MkExtResult _ _ _ => _ end] =>
      destruct (f p) as [? ? [?|?]]; cbv beta iota; cbn [argv cwd env];
      [exists u; trace_leaf|]
  end.

(** The configuration step, seen without the collaborators' output: a
    prefix of [SETUP], and all of it when the step completes. *)
Lemma configure_skeleton (X : Collaborators) (prompt : string) (p : Process) :
  ∃ u,
    skeleton (events (configure X prompt p)) `prefix_of` SETUP (argv p) u
    ∧ (∀ v, completion (configure X prompt p) = Normal v →
            skeleton (events (configure X prompt p)) = SETUP (argv p) u).
Proof.
  unfold configure, SETUP.
  rewrite bind_unfold. cbv beta iota delta [get_cwd].
  enter_call (@None string).
  enter_call (@None string).
  enter_call (@None string).
  rewrite bind_unfold.
  match goal with |- context [arg_or_env ?a ?k ?q] =>
    destruct (arg_or_env_events a k q) as [key ->] end.
  cbv beta iota. cbn [argv cwd env]. rewrite bind_unfold.
  match goal with |- context [arg_or_env ?a ?k ?q] =>
    destruct (arg_or_env_events a k q) as [url ->] end.
  cbv beta iota. cbn [argv cwd env].
  rewrite bind_unfold, getArgValue_unfold. cbv beta iota. cbn [argv cwd env].
  rewrite bind_unfold. cbv beta iota delta [console_log].
  rewrite bind_unfold. cbv beta iota. cbn [argv cwd env].
  unfold option_reads.
  destruct (arg_value (argv p) "--openai-api-key"),
           (arg_value (argv p) "--openai-base-url");
    (enter_call url; enter_call url; enter_call url; enter_call url;
     rewrite bind_unfold; cbv beta iota delta [console_log];
     enter_call url;
     cbv beta iota delta [mret proc_ret ret];
     exists url; trace_leaf).
Qed.

(** The [try] statement, seen without the collaborators' output. *)
Lemma run_skeleton (X : Collaborators) (config : Config X) (prompt promptId : string)
    (p : Process) :
  let r := run X config prompt promptId p in
  (completion r = Exit 0 ∧ skeleton (events r) = RUN_SUCCESS)
  ∨ (∃ e, completion r = Exit 1
          ∧ (skeleton (events r) = RUN_FAILURE e
             ∨ skeleton (events r) = SETTINGS_FAILURE e)).
Proof.
  unfold run, try_catch. rewrite bind_unfold.
  cbv beta iota delta [env_set]. rewrite bind_unfold, call_unfold.
  destruct (createMinimalSettings X _) as [w1 e1 [err|ms]]; cbv beta iota.
  - right. exists err. rewrite report_failure. cbn [completion events].
    split; [done|]. right.
    rewrite !skeleton_app, skeleton_call. reflexivity.
  - rewrite bind_unfold, call_unfold.
    destruct (runNonInteractive X config ms prompt promptId _) as [w2 e2 [err|[]]];
      cbv beta iota.
    + right. exists err. rewrite report_failure. cbn [completion events].
      split; [done|]. left.
      rewrite !skeleton_app, !skeleton_call. reflexivity.
    + left. rewrite report_success. cbn [completion events].
      split; [done|].
      rewrite !skeleton_app, !skeleton_call. reflexivity.
Qed.

(** Every execution of [main], seen without the collaborators' output:
    the usage error; a throw in the configuration step, which is not
    caught; or the single run with its marker. *)
Lemma main_skeleton (X : Collaborators) (p : Process) :
  let r := main X p in
  (truthy_opt (argv p !! 2) = false ∧ completion r = Exit 1
   ∧ events r = PROLOGUE ++ [ConsoleError [ArgText USAGE]; Exited 1])
  ∨ (truthy_opt (argv p !! 2) = true ∧ ∃ u,
      (∃ e sk, completion r = Throw e
               ∧ skeleton (events r) = PROLOGUE ++ sk
               ∧ sk `prefix_of` SETUP (argv p) u)
      ∨ (completion r = Exit 0
         ∧ skeleton (events r) = PROLOGUE ++ SETUP (argv p) u ++ RUN_SUCCESS)
      ∨ (∃ e, completion r = Exit 1
              ∧ (skeleton (events r) = PROLOGUE ++ SETUP (argv p) u ++ RUN_FAILURE e
                 ∨ skeleton (events r)
                   = PROLOGUE ++ SETUP (argv p) u ++ SETTINGS_FAILURE e))).
Proof.
  cbv zeta. rewrite main_unfold.
  pose proof (read_prompt_cases p) as Hr. cbv zeta in Hr. rewrite Hr.
  destruct (truthy_opt (argv p !! 2)) eqn:Hp; cbv beta iota; [|by left].
  right. split; [done|].
  match goal with |- context [configure X ?a ?q] =>
    pose proof (never_exits_configure X a q) as Hn;
    destruct (configure_skeleton X a q) as (u & Hpre & Hfull);
    destruct (configure X a q) as [[[config promptId]|e|c] p2 evs2]
  end; cbn [argv completion events] in *.
  - exists u. right.
    specialize (Hfull _ eq_refl).
    pose proof (run_skeleton X config (interpolate (argv p !! 2)) promptId p2) as Hrun.
    cbv zeta in Hrun.
    destruct (run X config (interpolate (argv p !! 2)) promptId p2) as [c p3 evs3].
    cbn [completion events] in *.
    rewrite !skeleton_app, Hfull.
    destruct Hrun as [[-> ->]|(e & -> & [-> | ->])].
    + by left.
    + right. exists e. split; [done|]. by left.
    + right. exists e. split; [done|]. by right.
  - exists u. left. exists e, (skeleton evs2). rewrite skeleton_app. by split_and!.
  - by specialize (Hn c).
Qed.

Lemma calls_skeleton (evs : list Event) : calls (skeleton evs) = calls evs.
Proof.
  induction evs as [|[| | | |[] ?| | |] evs IH]; simpl; by rewrite ?IH.
Qed.

Lemma logged_by_bridge_skeleton (evs : list Event) :
  logged_by_bridge (skeleton evs) = logged_by_bridge evs.
Proof.
  induction evs as [|[| | | |[] ?| | |] evs IH]; simpl; by rewrite ?IH.
Qed.

Lemma marker_texts_skeleton (evs : list Event) :
  marker_texts (skeleton evs) = marker_texts evs.
Proof. unfold marker_texts. by rewrite logged_by_bridge_skeleton. Qed.

Lemma calls_app (evs evs' : list Event) : calls (evs ++ evs') = calls evs ++ calls evs'.
Proof. unfold calls. apply bind_app. Qed.

Lemma calls_prefix (evs evs' : list Event) :
  evs `prefix_of` evs' → calls evs `prefix_of` calls evs'.
Proof. intros [k ->]. unfold calls. rewrite bind_app. by eexists. Qed.

Lemma calls_SETUP (a : list string) (u : option string) :
  calls (SETUP a u) = take 8 PIPELINE.
Proof.
  unfold SETUP, option_reads.
  by destruct (arg_value a "--openai-api-key"), (arg_value a "--openai-base-url").
Qed.

Lemma logged_by_bridge_SETUP (a : list string) (u : option string) :
  logged_by_bridge (SETUP a u) = [config_log (arg_value a "--model") u; STARTING].
Proof.
  unfold SETUP, option_reads.
  by destruct (arg_value a "--openai-api-key"), (arg_value a "--openai-base-url").
Qed.

Lemma marker_texts_setup_prefix (a : list string) (u : option string) (sk : list Event) :
  sk `prefix_of` SETUP a u → marker_texts sk = [].
Proof.
  intros [k Hk]. unfold marker_texts.
  assert (Hl : logged_by_bridge sk `prefix_of` [config_log (arg_value a "--model") u; STARTING]).
  { rewrite <- logged_by_bridge_SETUP, Hk. unfold logged_by_bridge.
    rewrite bind_app. by eexists. }
  destruct Hl as [k' Hk'].
  destruct (logged_by_bridge sk) as [|t1 [|t2 [|t3 l]]]; simplify_eq/=; done.
Qed.

(** X4. [main] enters the imported functions in one fixed order and each
    at most once: the calls of any execution are an initial part of the
    pipeline from [loadSettings] to [runNonInteractive].  Nothing is
    retried, whatever throws; an execution that exits with code 0 has
    gone through the whole pipeline. *)
Theorem calls_follow_pipeline (X : Collaborators) (p : Process) :
  calls (events (main X p)) `prefix_of` PIPELINE
  ∧ NoDup (calls (events (main X p)))
  ∧ (exit_code (main X p) = Some 0%Z → calls (events (main X p)) = PIPELINE).
Proof.
  assert (Hpre : calls (events (main X p)) `prefix_of` PIPELINE
                 ∧ (exit_code (main X p) = Some 0%Z
                    → calls (events (main X p)) = PIPELINE)).
  { unfold exit_code.
    destruct (main_skeleton X p) as [(_ & -> & ->)|(_ & u & H)].
    - split; [by eexists|done].
    - rewrite <- calls_skeleton.
      destruct H as [(e & sk & -> & -> & Hsk)|[(-> & ->)|(e & -> & [-> | ->])]].
      + split; [|done]. apply calls_prefix in Hsk. rewrite calls_SETUP in Hsk.
        rewrite calls_app. change (calls PROLOGUE) with (@nil Call). cbn [app].
        destruct Hsk as [k Hk]. exists (k ++ drop 8 PIPELINE).
        rewrite app_assoc, <- Hk. reflexivity.
      + rewrite !calls_app, calls_SETUP. split; [by exists []|done].
      + rewrite !calls_app, calls_SETUP. split; [by exists []|done].
      + rewrite !calls_app, calls_SETUP. split; [by eexists|done]. }
  destruct Hpre as [Hpre Hall]. split_and!; [done| |done].
  destruct Hpre as [k Hk].
  assert (Hnd : NoDup PIPELINE).
  { unfold PIPELINE.
    repeat (apply NoDup_cons_2;
            [rewrite ?elem_of_cons, elem_of_nil; intros H;
             repeat destruct H as [H|H]; try discriminate; done|]).
    apply NoDup_nil_2. }
  rewrite Hk in Hnd. by apply NoDup_app in Hnd as [? _].
Qed.

Lemma marker_texts_app (evs evs' : list Event) :
  marker_texts (evs ++ evs') = marker_texts evs ++ marker_texts evs'.
Proof. unfold marker_texts, logged_by_bridge. by rewrite bind_app, filter_app. Qed.

Lemma marker_texts_SETUP (a : list string) (u : option string) :
  marker_texts (SETUP a u) = [].
Proof. by apply (marker_texts_setup_prefix a u). Qed.

Lemma marker_texts_RUN_FAILURE (e : Thrown) :
  marker_texts (RUN_FAILURE e) = [failure_marker e]
  ∧ marker_texts (SETTINGS_FAILURE e) = [failure_marker e].
Proof. split; reflexivity. Qed.

(** X5. The bridge logs a text that starts with [__ONEAGENT_RESULT__:]
    exactly once in an execution that reaches the [try] statement, the
    success marker for exit code 0 and the failure marker of the thrown
    value for exit code 1, and never otherwise: not for the usage error,
    and not when the configuration step throws (then no exit code is set
    by [main] at all). *)
Theorem one_marker_text_per_run (X : Collaborators) (p : Process) :
  let r := main X p in
  (exit_code r = Some 0%Z → marker_texts (events r) = [SUCCESS_MARKER])
  ∧ (exit_code r = Some 1%Z → truthy_opt (argv p !! 2) = true →
     ∃ e, marker_texts (events r) = [failure_marker e])
  ∧ (truthy_opt (argv p !! 2) = false → marker_texts (events r) = [])
  ∧ (exit_code r = None → marker_texts (events r) = [])
  ∧ length (marker_texts (events r)) ≤ 1.
Proof.
  cbv zeta. unfold exit_code.
  destruct (main_skeleton X p) as [(Hp & -> & ->)|(Hp & u & H)].
  - rewrite Hp.
    change (marker_texts (PROLOGUE ++ [ConsoleError [ArgText USAGE]; Exited 1]))
      with (@nil string).
    split_and!; try done. simpl; lia.
  - rewrite Hp, <- marker_texts_skeleton.
    destruct H as [(e & sk & -> & -> & Hsk)|[(-> & ->)|(e & -> & [-> | ->])]];
      rewrite !marker_texts_app, ?marker_texts_SETUP,
        ?(marker_texts_setup_prefix _ _ _ Hsk),
        ?(proj1 (marker_texts_RUN_FAILURE e)), ?(proj2 (marker_texts_RUN_FAILURE e));
      change (marker_texts PROLOGUE) with (@nil string);
      try change (marker_texts RUN_SUCCESS) with [SUCCESS_MARKER];
      cbn [app length]; split_and!; try done; try lia; intros; by eexists.
Qed.

Lemma one_marker_text_per_run_witness :
  marker_texts (events (main (scripted ["{}"] (inr ())) (started ["do the task"] ∅)))
    = [SUCCESS_MARKER]
  ∧ marker_texts (events (main (scripted [] (inr ())) (started [] ∅))) = [].
Proof.
  split.
  - exact (proj1 (one_marker_text_per_run (scripted ["{}"] (inr ()))
                    (started ["do the task"] ∅)) eq_refl).
  - exact (proj1 (proj2 (proj2 (one_marker_text_per_run (scripted [] (inr ()))
                    (started [] ∅)))) eq_refl).
Defined.

Lemma skeleton_elem_of (ev : Event) (evs : list Event) :
  ev ∈ evs → (∃ t, ev = ConsoleLog ByCollaborator t) ∨ ev ∈ skeleton evs.
Proof.
  induction evs as [|ev' evs IH]; [by intros ?%elem_of_nil|].
  rewrite elem_of_cons. intros [->|H].
  - destruct ev' as [| | | |[] ?| | |]; simpl; rewrite ?elem_of_cons; eauto.
  - destruct (IH H) as [?|?]; [by left|]. right.
    destruct ev' as [| | | |[] ?| | |]; simpl; rewrite ?elem_of_cons; eauto.
Qed.

(** X6. A throw in the configuration step (settings, configuration,
    initialization, authentication, tool registration) is not caught:
    [main] completes by that throw, having logged no marker text, called
    neither [createMinimalSettings] nor [runNonInteractive], and not
    called [process.exit]. *)
Theorem setup_failure_unreported (X : Collaborators) (p : Process) (e : Thrown) :
  completion (main X p) = Throw e →
  truthy_opt (argv p !! 2) = true
  ∧ marker_texts (events (main X p)) = []
  ∧ calls (events (main X p)) `prefix_of` take 8 PIPELINE
  ∧ (∀ code, Exited code ∉ events (main X p)).
Proof.
  intros Hc.
  destruct (main_skeleton X p) as [(_ & H & _)|(Hp & u & H)]; [congruence|].
  destruct H as [(e' & sk & _ & Hs & Hsk)|[(H & _)|(e' & H & _)]]; [|congruence..].
  split_and!; [done| | |].
  - rewrite <- marker_texts_skeleton, Hs, marker_texts_app.
    by rewrite (marker_texts_setup_prefix _ _ _ Hsk).
  - rewrite <- calls_skeleton, Hs, calls_app, <- (calls_SETUP (argv p) u).
    by apply calls_prefix.
  - intros code Hin. apply skeleton_elem_of in Hin as [[t [=]]|Hin].
    rewrite Hs in Hin. destruct Hsk as [k Hk].
    assert (Hin' : Exited code ∈ PROLOGUE ++ SETUP (argv p) u).
    { rewrite Hk, app_assoc. apply elem_of_app. by left. }
    clear -Hin'. unfold SETUP, option_reads, PROLOGUE in Hin'.
    destruct (arg_value (argv p) "--openai-api-key"),
             (arg_value (argv p) "--openai-base-url");
      cbn [app] in Hin'; rewrite ?elem_of_cons, elem_of_nil in Hin';
      repeat destruct Hin' as [Hin'|Hin']; done.
Qed.

Lemma setup_failure_unreported_witness :
  marker_texts (events (main (failing_setup (Error "no settings file"))
                             (started ["do the task"] ∅))) = [].
Proof.
  exact (proj1 (proj2 (setup_failure_unreported
    (failing_setup (Error "no settings file")) (started ["do the task"] ∅)
    (Error "no settings file") eq_refl))).
Defined.

Lemma Forall_skeleton (P : Event → Prop) (evs : list Event) :
  (∀ t, P (ConsoleLog ByCollaborator t)) → Forall P (skeleton evs) → Forall P evs.
Proof.
  intros Hc H. apply Forall_forall. intros ev Hin.
  apply skeleton_elem_of in Hin as [[t ->]|Hin]; [apply Hc|].
  by eapply Forall_forall in H.
Qed.

Lemma env_access_SETUP (a : list string) (u : option string) :
  Forall (env_access_allowed a) (SETUP a u).
Proof.
  unfold SETUP, option_reads.
  destruct (arg_value a "--openai-api-key") eqn:Hk,
           (arg_value a "--openai-base-url") eqn:Hu;
    cbn [app];
    repeat (apply Forall_cons; split;
            [unfold env_access_allowed; rewrite ?Hk, ?Hu;
             first [done | by left | by right]|]);
    apply Forall_nil_2.
Qed.

(** X7. The only environment variables [main] itself writes are the two
    telemetry switches, with the values [true] and [1]; the only ones it
    reads are [OPENAI_API_KEY] and [OPENAI_BASE_URL], and each of them
    only when its flag gives no value.  In particular [--model] has no
    environment fallback. *)
Theorem environment_access (X : Collaborators) (p : Process) :
  Forall (env_access_allowed (argv p)) (events (main X p)).
Proof.
  apply Forall_skeleton; [done|].
  assert (Hpro : Forall (env_access_allowed (argv p)) PROLOGUE).
  { unfold PROLOGUE.
    repeat (apply Forall_cons; split;
            [unfold env_access_allowed; first [done | by left | by right]|]).
    apply Forall_nil_2. }
  destruct (main_skeleton X p) as [(_ & _ & ->)|(_ & u & H)].
  - change (skeleton (PROLOGUE ++ [ConsoleError [ArgText USAGE]; Exited 1]))
      with (PROLOGUE ++ [ConsoleError [ArgText USAGE]; Exited 1]).
    apply Forall_app. split; [done|].
    repeat (apply Forall_cons; split; [done|]). apply Forall_nil_2.
  - pose proof (env_access_SETUP (argv p) u) as Hs.
    destruct H as [(e & sk & _ & -> & [k Hk])|[(_ & ->)|(e & _ & [-> | ->])]];
      rewrite ?Forall_app; split_and?; try done.
    + rewrite Hk in Hs. by apply Forall_app in Hs as [? _].
    + unfold RUN_SUCCESS.
      repeat (apply Forall_cons; split;
              [unfold env_access_allowed; first [done | by left | by right]|]).
      apply Forall_nil_2.
    + unfold RUN_FAILURE.
      repeat (apply Forall_cons; split;
              [unfold env_access_allowed; first [done | by left | by right]|]).
      apply Forall_nil_2.
    + unfold SETTINGS_FAILURE.
      repeat (apply Forall_cons; split;
              [unfold env_access_allowed; first [done | by left | by right]|]).
      apply Forall_nil_2.
Qed.

(** X8. [createMinimalSettings] is called inside the [try] statement: when
    it throws, the thrown value is reported like a failure of the run
    (error on standard error, failure marker, exit code 1), and
    [runNonInteractive] is never entered. *)
Theorem settings_failure_reported (X : Collaborators) (config : Config X)
    (prompt promptId : string) (p : Process) (w : list string)
    (e1 : gmap string string) (err : Thrown) :
  createMinimalSettings X
    (MkProcess (argv p) (<["QWEN_DISABLE_TELEMETRY" := "true"]> (env p)) (cwd p))
    = MkExtResult w e1 (inl err) →
  let r := run X config prompt promptId p in
  completion r = Exit 1
  ∧ skeleton (events r) = SETTINGS_FAILURE err
  ∧ (CallRunNonInteractive ∉ calls (events r))
  ∧ marker_texts (events r) = [failure_marker err].
Proof.
  intros H1. cbv zeta.
  assert (Hr : completion (run X config prompt promptId p) = Exit 1
               ∧ skeleton (events (run X config prompt promptId p)) = SETTINGS_FAILURE err).
  { unfold run, try_catch. rewrite bind_unfold.
    cbv beta iota delta [env_set]. rewrite bind_unfold, call_unfold, H1.
    cbv beta iota. rewrite report_failure. cbn [completion events].
    split; [done|]. rewrite !skeleton_app, skeleton_call. reflexivity. }
  destruct Hr as [Hc Hs]. split_and!; [done..| |].
  - rewrite <- calls_skeleton, Hs.
    change (calls (SETTINGS_FAILURE err)) with [CallCreateMinimalSettings].
    rewrite elem_of_cons, elem_of_nil. by intros [?|?].
  - by rewrite <- marker_texts_skeleton, Hs.
Qed.

Lemma settings_failure_reported_witness :
  marker_texts
    (events (run (failing_minimal_settings (Error "corrupt settings"))
               sample_config "do the task" "prompt-id" (started ["do the task"] ∅)))
  = [failure_marker (Error "corrupt settings")].
Proof.
  exact (proj2 (proj2 (proj2 (settings_failure_reported
    (failing_minimal_settings (Error "corrupt settings"))
    sample_config "do the task" "prompt-id" (started ["do the task"] ∅)
    [] _ (Error "corrupt settings") eq_refl)))).
Defined.

Lemma split_lines_all_one_line (s : string) :
  Forall (λ l, one_line l = true) (split_lines s).
Proof.
  induction s as [|c s IH]; [by repeat constructor|].
  simpl. destruct (Ascii.eqb c _) eqn:E.
  - by constructor.
  - destruct (split_lines s) as [|l ls]; [by repeat constructor; simpl; rewrite E|].
    apply Forall_cons in IH as [Hl Hls]. constructor; [|done].
    simpl. by rewrite E, Hl.
Qed.

Lemma failure_marker_one_line_iff (e : Thrown) :
  one_line (failure_marker e) = one_line (String_ e).
Proof.
  unfold failure_marker. rewrite !one_line_append.
  by destruct (one_line (String_ e)).
Qed.

(** X9. Whenever the process ends with status 1 after a prompt was given,
    one of two things happened.  Either the configuration step threw: the
    throw is not caught, [main] completes by it and no marker text was
    logged.  Or [main] called [process.exit(1)]: then some value [e] was
    thrown inside the [try] statement, it is printed on standard error,
    and the last text logged on standard output is the failure marker
    built from [String(e)]; that marker is the last line of standard
    output exactly when [String(e)] contains no line feed. *)
Theorem status_1_after_prompt (X : Collaborators) (p : Process) :
  process_status (main X p) = 1%Z → truthy_opt (argv p !! 2) = true →
  (∃ e, completion (main X p) = Throw e
        ∧ marker_texts (events (main X p)) = [])
  ∨ (∃ e, completion (main X p) = Exit 1
          ∧ ConsoleError [ArgText "Bridge Error:"; ArgValue e] ∈ events (main X p)
          ∧ last (logged (events (main X p))) = Some (failure_marker e)
          ∧ (last_stdout_line (events (main X p)) = Some (failure_marker e)
             ↔ one_line (String_ e) = true)).
Proof.
  intros Hs Hp. unfold process_status in Hs.
  destruct (completion (main X p)) as [[]|e|code] eqn:Hc; [done| |].
  - left. exists e. split; [done|].
    destruct (main_skeleton X p) as [(_ & H & _)|(_ & u & H)]; [congruence|].
    destruct H as [(e' & sk & _ & Hsk & Hpre)|[(H & _)|(e' & H & _)]]; [|congruence..].
    rewrite <- marker_texts_skeleton, Hsk, marker_texts_app.
    by rewrite (marker_texts_setup_prefix _ _ _ Hpre).
  - subst code. right.
    assert (Hx : exit_code (main X p) = Some 1%Z) by (unfold exit_code; by rewrite Hc).
    apply main_exit_cases in Hx as [[_ ?]|[[? _]|[_ (evs & e & He)]]]; [congruence|done|].
    exists e. rewrite He. split_and!.
    + done.
    + rewrite elem_of_app, !elem_of_cons. auto.
    + rewrite logged_app, last_app. reflexivity.
    + rewrite (assoc_L (++) evs [ConsoleError _] [_; _] : evs ++ [_; _; _] = _).
      rewrite last_stdout_line_final_log. split.
      * intros Hl. rewrite <- failure_marker_one_line_iff.
        pose proof (split_lines_all_one_line (failure_marker e)) as Hall.
        apply last_Some in Hl as [l' Hl]. rewrite Hl in Hall.
        apply Forall_app in Hall as [_ Hall]. apply Forall_inv in Hall. exact Hall.
      * intros Hl. by rewrite failure_marker_one_line.
Qed.

Lemma status_1_after_prompt_witness :
  (∃ e, completion (main (failing_setup (Error "no settings file"))
                         (started ["do the task"] ∅)) = Throw e
        ∧ marker_texts (events (main (failing_setup (Error "no settings file"))
                                     (started ["do the task"] ∅))) = [])
  ∨ (∃ e, completion (main (failing_setup (Error "no settings file"))
                           (started ["do the task"] ∅)) = Exit 1
          ∧ ConsoleError [ArgText "Bridge Error:"; ArgValue e]
            ∈ events (main (failing_setup (Error "no settings file"))
                           (started ["do the task"] ∅))
          ∧ last (logged (events (main (failing_setup (Error "no settings file"))
                                       (started ["do the task"] ∅))))
            = Some (failure_marker e)
          ∧ (last_stdout_line (events (main (failing_setup (Error "no settings file"))
                                            (started ["do the task"] ∅)))
             = Some (failure_marker e)
             ↔ one_line (String_ e) = true)).
Proof.
  exact (status_1_after_prompt (failing_setup (Error "no settings file"))
           (started ["do the task"] ∅) eq_refl eq_refl).
Defined.

(** Both cases occur: a throw of [loadCliConfig], and a throw of the run. *)
Example status_1_both_ways :
  process_status (main (failing_setup (Error "no settings file"))
                       (started ["do the task"] ∅)) = 1%Z
  ∧ exit_code (main (failing_setup (Error "no settings file"))
                    (started ["do the task"] ∅)) = None
  ∧ process_status (main (scripted ["{}"] (inl (Error "boom")))
                         (started ["do the task"] ∅)) = 1%Z
  ∧ exit_code (main (scripted ["{}"] (inl (Error "boom")))
                    (started ["do the task"] ∅)) = Some 1%Z.
Proof. split_and!; reflexivity. Qed.

(** *** The markers as JSON *)

Lemma append_length (a b : string) :
  String.length (a +:+ b) = String.length a + String.length b.
Proof.
  induction a as [|x a IH]; [reflexivity|].
  change (S (String.length (a +:+ b)) = S (String.length a + String.length b)).
  by rewrite IH.
Qed.

Lemma quote_unit_length (c : ascii) :
  String.length (quote_unit c) = 1 ↔ plain_unit c = true.
Proof.
  destruct c as [[] [] [] [] [] [] [] []]; vm_compute; split; congruence.
Qed.

Lemma quote_unit_length_pos (c : ascii) : 1 ≤ String.length (quote_unit c).
Proof.
  destruct c as [[] [] [] [] [] [] [] []]; vm_compute; lia.
Qed.

Lemma quote_unit_plain (c : ascii) :
  plain_unit c = true → quote_unit c = String c EmptyString.
Proof.
  destruct c as [[] [] [] [] [] [] [] []]; vm_compute; congruence.
Qed.

Lemma quote_units_plain (s : string) : plain_text s = true → quote_units s = s.
Proof.
  induction s as [|c s IH]; [done|].
  simpl. intros [Hc Hs]%andb_true_iff. by rewrite (quote_unit_plain c Hc), (IH Hs).
Qed.

Lemma quote_units_length (s : string) :
  String.length s ≤ String.length (quote_units s)
  ∧ (String.length (quote_units s) = String.length s → plain_text s = true).
Proof.
  induction s as [|c s [IH1 IH2]]; [done|].
  cbn [quote_units plain_text String.length]. rewrite append_length.
  pose proof (quote_unit_length_pos c) as Hpos.
  split; [lia|]. intros H.
  rewrite IH2 by lia. rewrite andb_true_r.
  apply quote_unit_length. lia.
Qed.

Lemma quote_units_append (a b : string) :
  quote_units (a +:+ b) = quote_units a +:+ quote_units b.
Proof.
  induction a as [|x a IH]; [reflexivity|].
  change (quote_unit x +:+ quote_units (a +:+ b)
          = (quote_unit x +:+ quote_units a) +:+ quote_units b).
  by rewrite IH, append_assoc.
Qed.

(** X10. The success marker is the marker prefix followed by the JSON
    serialization of its two fields.  For a [String(e)] made of code units
    U+0000 to U+00FF, the strings of this development, the failure marker
    is the prefix followed by the JSON serialization of its two fields
    exactly when [String(e)] holds no quote, no backslash and no control
    character: the text is pasted between the quotes without escaping.
    (Above U+00FF [JSON.stringify] also escapes a lone surrogate, which
    these strings cannot hold.) *)
Theorem markers_are_json_iff_plain :
  SUCCESS_MARKER
  = MARKER +:+ stringify_object
      [("status", Some "success");
       ("result", Some "Task completed successfully via native CLI.")]
  ∧ ∀ e : Thrown,
      failure_marker e
      = MARKER +:+ stringify_object
          [("status", Some "failure");
           ("result", Some ("Bridge Exception: " +:+ String_ e))]
      ↔ plain_text (String_ e) = true.
Proof.
  split; [reflexivity|]. intros e.
  assert (Hjson : stringify_object
            [("status", Some "failure");
             ("result", Some ("Bridge Exception: " +:+ String_ e))]
          = "{" +:+ DQ +:+ "status" +:+ DQ +:+ ":" +:+ DQ +:+ "failure" +:+ DQ +:+ ","
            +:+ DQ +:+ "result" +:+ DQ +:+ ":" +:+ DQ
            +:+ "Bridge Exception: " +:+ quote_units (String_ e) +:+ DQ +:+ "}").
  { unfold stringify_object.
    cbn [mbind list_bind stringify_member fst snd app join].
    unfold stringify_string. rewrite quote_units_append, !append_assoc. reflexivity. }
  rewrite Hjson. unfold failure_marker. split.
  - intros H. apply quote_units_length.
    apply (f_equal String.length) in H. rewrite !append_length in H. lia.
  - intros H. by rewrite quote_units_plain.
Qed.

(** *** [getArgValue] *)

Lemma indexOf_first (a : list string) (x : string) (i : nat) :
  a !! i = Some x → (∀ j, j < i → a !! j ≠ Some x) → indexOf a x = Some i.
Proof.
  revert i. induction a as [|y a IH]; intros i Hi Hfirst; [done|].
  simpl. destruct (String.eqb_spec y x) as [->|Hne].
  - destruct i as [|i]; [done|]. by destruct (Hfirst 0 ltac:(lia)).
  - destruct i as [|i]; [simpl in Hi; congruence|].
    rewrite (IH i); [done|done|]. intros j Hj. apply (Hfirst (S j)). lia.
Qed.

(** X11. [getArgValue] gives a value exactly when a non-empty argument
    follows the first occurrence of the flag in [process.argv], and then
    gives that argument, whatever it looks like.  Later occurrences of the
    flag are never looked at, and the result is never the empty string. *)
Theorem getArgValue_first_occurrence (a : list string) (argName v : string) :
  arg_value a argName = Some v
  ↔ ∃ i, a !! i = Some argName
         ∧ (∀ j, j < i → a !! j ≠ Some argName)
         ∧ a !! (i + 1) = Some v
         ∧ v ≠ EmptyString.
Proof.
  unfold arg_value. split.
  - destruct (indexOf a argName) as [i|] eqn:Hi; [|done].
    apply indexOf_Some in Hi as [H1 H2].
    destruct (a !! (i + 1)) as [w|] eqn:Hw; [|done].
    cbn [truthy_opt]. destruct (truthy w) eqn:Ht; [|done].
    intros [= ->]. exists i. split_and!; [done..|]. by apply truthy_true.
  - intros (i & H1 & H2 & H3 & H4).
    rewrite (indexOf_first a argName i H1 H2), H3. cbn [truthy_opt].
    apply truthy_true in H4. by rewrite H4.
Qed.

Example getArgValue_repeated_flag :
  arg_value ["node"; "bridge.js"; "p"; "--model"; ""; "--model"; "qwen"] "--model" = None
  ∧ arg_value ["node"; "bridge.js"; "p"; "--model"; "--model"; "qwen"] "--model"
    = Some "--model".
Proof. split; reflexivity. Qed.

(** ** Further properties of the reporting action *)

Lemma append_empty_r' (a : string) : a +:+ EmptyString = a.
Proof.
  induction a as [|x a IH]; [reflexivity|].
  change (String x (a +:+ EmptyString) = String x a). by rewrite IH.
Qed.

Lemma split_lines_prefix (pre s : string) :
  one_line pre = true →
  ∃ l ls, split_lines (pre +:+ s) = (pre +:+ l) :: ls ∧ split_lines s = l :: ls.
Proof.
  intros Hpre. induction pre as [|c pre IH].
  - destruct (split_lines s) as [|l ls] eqn:E; [by apply split_lines_nonempty in E|].
    by exists l, ls.
  - change (String c pre +:+ s) with (String c (pre +:+ s)).
    simpl in Hpre |- *. destruct (Ascii.eqb c _); [done|].
    destruct (IH Hpre) as (l & ls & -> & Hs). by exists l, ls.
Qed.

(** X12. From accepted input to display: for every input that validation
    accepts, the display of the invocation built from it opens with the
    line [Status: ] followed by one of the four lower-case values, and the
    second line starts with [Result: ].  Both revisions. *)
Theorem accepted_display_opens_with_status :
  (∀ (p : ReportStatus.ReportStatusParams) (signal : AbortSignal) (log : list Effect),
     ReportStatus.validateToolParamValues p = None →
     ∃ t l rest,
       t ∈ VALID_STATUSES
       ∧ split_lines (returnDisplay
           (ReportStatus.execute (ReportStatus.createInvocation p) signal log).1)
         = ("Status: " +:+ t) :: ("Result: " +:+ l) :: rest)
  ∧ (∀ (p : ReportStatusMessage.ReportStatusParams) (signal : AbortSignal)
       (log : list Effect),
     ReportStatusMessage.validateToolParamValues p = None →
     ∃ t l rest,
       t ∈ VALID_STATUSES
       ∧ split_lines (returnDisplay
           (ReportStatusMessage.execute (ReportStatusMessage.createInvocation p)
              signal log).1)
         = ("Status: " +:+ t) :: ("Result: " +:+ l) :: rest).
Proof.
  assert (Hvalid : ∀ t, t ∈ VALID_STATUSES → one_line ("Status: " +:+ t) = true).
  { intros t. unfold VALID_STATUSES. rewrite !elem_of_cons, elem_of_nil.
    intros [->|[->|[->|[->|[]]]]]; reflexivity. }
  split; intros p signal log Hv.
  - apply validate_accepts in Hv as (_ & _ & Hin).
    exists (toLowerCase (ReportStatus.status p)).
    cbn [ReportStatus.execute resolve fst returnDisplay ReportStatus.createInvocation
         ReportStatus.params].
    rewrite display_of_rendered. unfold rendered_lines.
    cbn [app ReportStatus.status ReportStatus.result ReportStatus.reason
         ReportStatus.mismatch_detail].
    set (tail := optional_line _ _ ++ optional_line _ _).
    change (join LF (?a :: ?b :: tail)) with (a +:+ LF +:+ join LF (b :: tail)).
    rewrite split_lines_cons by by apply Hvalid.
    assert (∃ body, join LF (("Result: " +:+ ReportStatus.result p) :: tail)
                    = "Result: " +:+ body) as [body ->].
    { destruct tail as [|x tail]; [by eexists|].
      change (join LF (?a :: x :: tail)) with (a +:+ LF +:+ join LF (x :: tail)).
      rewrite append_assoc. by eexists. }
    destruct (split_lines_prefix "Result: " body eq_refl) as (l & ls & -> & _).
    by exists l, ls.
  - apply validate_message_accepts in Hv as (_ & _ & Hin).
    exists (toLowerCase (ReportStatusMessage.status p)).
    cbn [ReportStatusMessage.execute resolve fst returnDisplay
         ReportStatusMessage.createInvocation ReportStatusMessage.params].
    unfold ReportStatusMessage.display_of.
    cbn [ReportStatusMessage.status ReportStatusMessage.message].
    rewrite <- (append_assoc "Status: "), split_lines_cons by by apply Hvalid.
    destruct (split_lines_prefix "Result: " (ReportStatusMessage.message p) eq_refl)
      as (l & ls & -> & _).
    by exists l, ls.
Qed.

Lemma accepted_display_opens_with_status_witness :
  ∃ t l rest,
    t ∈ VALID_STATUSES
    ∧ split_lines (returnDisplay
        (ReportStatus.execute
           (ReportStatus.createInvocation
              (ReportStatus.MkParams "REJECTED" ("no" +:+ LF +:+ "network") None None))
           (MkAbortSignal false) []).1)
      = ("Status: " +:+ t) :: ("Result: " +:+ l) :: rest.
Proof.
  exact (proj1 accepted_display_opens_with_status
           (ReportStatus.MkParams "REJECTED" ("no" +:+ LF +:+ "network") None None)
           (MkAbortSignal false) [] eq_refl).
Defined.

(** X13. The two revisions of the tool describe and display a record in
    the same way as long as the first one has no populated optional
    field: with [message] holding what [result] holds, [getDescription]
    and the display agree.  A populated reason is appended to the
    description of the first revision in parentheses; the mismatch detail
    never shows in a description. *)
Theorem revisions_agree_without_optional_fields
    (st payload : string) (r m : option string) :
  let a := ReportStatus.MkInvocation (ReportStatus.MkParams st payload r m) in
  let b := ReportStatusMessage.MkInvocation (ReportStatusMessage.MkParams st payload) in
  ReportStatus.getDescription a
  = ReportStatusMessage.getDescription b
    +:+ (if truthy_opt r then " (Reason: " +:+ interpolate r +:+ ")" else EmptyString)
  ∧ (truthy_opt r = false → truthy_opt m = false →
     ∀ signal log,
       returnDisplay (ReportStatus.execute a signal log).1
       = returnDisplay (ReportStatusMessage.execute b signal log).1).
Proof.
  cbv zeta. split.
  - unfold ReportStatus.getDescription, ReportStatusMessage.getDescription.
    cbn [ReportStatus.params ReportStatus.status ReportStatus.result ReportStatus.reason
         ReportStatusMessage.params ReportStatusMessage.status
         ReportStatusMessage.message].
    destruct (truthy_opt r).
    + by rewrite !append_assoc.
    + by rewrite !append_assoc, append_empty_r'.
  - intros Hr Hm signal log.
    cbn [ReportStatus.execute ReportStatusMessage.execute resolve fst returnDisplay
         ReportStatus.params ReportStatusMessage.params].
    unfold ReportStatus.display_of, ReportStatusMessage.display_of.
    cbn [ReportStatus.status ReportStatus.result ReportStatus.reason
         ReportStatus.mismatch_detail ReportStatusMessage.status
         ReportStatusMessage.message].
    by rewrite Hr, Hm.
Qed.

(** ** The build script *)

Import BuildScript.

Ltac script_cases T w :=
  unfold script, build_chain, on_built;
  destruct (import_esbuild T) as [ie|] eqn:Himport;
  [|destruct (require_version T (resolve T (dirname T) "../package.json"))
      as [re|version] eqn:Hrequire;
    [|destruct (bool_decide (resolve T (dirname T) "../dist" ∈ existing w)) eqn:Hdist;
      [|destruct (mkdir T (resolve T (dirname T) "../dist") w) as [me|] eqn:Hmkdir];
      try match goal with
        | |- context [build T ?o ?w'] =>
            destruct (build T o w') as [be|meta] eqn:Hbuild;
            [|destruct (bool_decide (env w' !! "DEV" = Some "true")) eqn:Hdev;
              [destruct (writeFile T METAFILE_PATH meta w') as [we|] eqn:Hwrite|]]
        end]];
  cbn [outcome world events exit_code existing env].

Ltac mem_cases H :=
  unfold on_failed in H; cbn [app] in H;
  rewrite ?elem_of_cons, ?elem_of_nil in H;
  repeat (destruct H as [H|H]); try discriminate; try done.



(** X15. The script starts the build only once the [dist] directory next
    to it exists (it creates it when it is missing, and only then), and
    the only file it writes itself is the metafile, and that only when the
    environment variable [DEV] is exactly [true]. *)
Theorem build_script_files (T : Toolchain) (w : World) :
  let r := script T w in
  let distDir := resolve T (dirname T) "../dist" in
  (Build ∈ events r → distDir ∈ existing (world r))
  ∧ (∀ d, MkdirSync d ∈ events r → d = distDir ∧ distDir ∉ existing w)
  ∧ (∀ path data, WriteFileSync path data ∈ events r →
       path = METAFILE_PATH ∧ env w !! "DEV" = Some "true" ∧ Build ∈ events r).
Proof.
  cbv zeta. split_and!.
  - script_cases T w; intros H; mem_cases H;
      first [ by apply bool_decide_eq_true in Hdist | set_solver ].
  - intros d. script_cases T w; intros H; mem_cases H;
      injection H as ->; (split; [done|]); by apply bool_decide_eq_false in Hdist.
  - intros path data. script_cases T w; intros H; mem_cases H;
      injection H as -> ->; apply bool_decide_eq_true in Hdev;
      (split_and!; [done|done|]);
      repeat (apply elem_of_cons; first [left; reflexivity | right]).
Qed.

Lemma build_script_files_witness :
  resolve (working_toolchain "{}") (dirname (working_toolchain "{}")) "../dist"
  ∈ existing (world (script (working_toolchain "{}") (MkWorld ∅ {["DEV" := "1"]}))).
Proof.
  apply (proj1 (build_script_files (working_toolchain "{}")
                  (MkWorld ∅ {["DEV" := "1"]}))).
  match goal with
  | |- ?x ∈ ?l => let l' := eval vm_compute in l in change (x ∈ l')
  end.
  repeat (apply elem_of_cons; first [left; reflexivity | right]).
Defined.
